(** * Economic news bot: the dialog manager and the news store

    A shallow embedding of [src/dialog_manager.py] (class [DialogManager]) and
    of the parts of [src/news_parser.py] (class [NewsParser]) it calls, with
    the properties of the dialog core stated and proved over it.

    Conventions of the embedding:
    - a Python [str] is the list of its Unicode code points;
    - a Python [dict] with a fixed set of string keys is a [gmap string _];
      [news_cache], whose iteration order matters, is an association list;
    - a method of [DialogManager] is a computation in the monad [M]: it
      threads the manager, the world of the collaborators and the list of the
      collaborator calls made so far, and it either returns or raises;
    - [logger] calls are not modelled, they have no effect on any value. *)

From stdpp Require Import gmap strings list sorting.
From Stdlib Require Import ZArith NArith Lia Ascii.

(** ** Python strings *)

Abbreviation pystr := (list N).

Module PyStr.

Local Open Scope N_scope.

(** Decoding of the UTF-8 bytes of a literal of this file into code points.
    Only used to write the constants of the source. *)
Fixpoint utf8_decode (bs : list N) : pystr :=
  match bs with
  | [] => []
  | b :: rest =>
      if b <? 128 then b :: utf8_decode rest
      else if b <? 224 then
        match rest with
        | b1 :: rest1 => ((b mod 32) * 64 + b1 mod 64) :: utf8_decode rest1
        | [] => []
        end
      else if b <? 240 then
        match rest with
        | b1 :: b2 :: rest2 =>
            ((b mod 16) * 4096 + (b1 mod 64) * 64 + b2 mod 64)
              :: utf8_decode rest2
        | _ => []
        end
      else
        match rest with
        | b1 :: b2 :: b3 :: rest3 =>
            ((b mod 8) * 262144 + (b1 mod 64) * 4096
             + (b2 mod 64) * 64 + b3 mod 64) :: utf8_decode rest3
        | _ => []
        end
  end.

Definition of_string (s : string) : pystr :=
  utf8_decode (map N_of_ascii (String.list_ascii_of_string s)).

(** [str.lower()], code point by code point, for the alphabets the bot is
    written for: Basic Latin, Latin-1 and the Cyrillic block
    U+0400..U+042F.  Code points outside these ranges are left as they
    are. *)
Definition lower_cp (c : N) : N :=
  if (65 <=? c) && (c <=? 90) then c + 32
  else if (192 <=? c) && (c <=? 222) && negb (c =? 215) then c + 32
  else if (1040 <=? c) && (c <=? 1071) then c + 32
  else if (1024 <=? c) && (c <=? 1039) then c + 80
  else c.

Definition lower (s : pystr) : pystr := map lower_cp s.

(** [str.isspace()] on one code point: the white space of [strip()] and
    of [split()] without argument. *)
Definition isspace (c : N) : bool :=
  ((9 <=? c) && (c <=? 13)) || ((28 <=? c) && (c <=? 32))
  || (c =? 133) || (c =? 160) || (c =? 5760)
  || ((8192 <=? c) && (c <=? 8202))
  || (c =? 8232) || (c =? 8233) || (c =? 8239) || (c =? 8287)
  || (c =? 12288).

Fixpoint lstrip (s : pystr) : pystr :=
  match s with
  | c :: s' => if isspace c then lstrip s' else s
  | [] => []
  end.

Definition rstrip (s : pystr) : pystr := reverse (lstrip (reverse s)).

Definition strip (s : pystr) : pystr := rstrip (lstrip s).

(** [s.split()]: the maximal runs of non-space code points.  [cur] is the
    run being read, most recent code point first. *)
Fixpoint split_ws_from (cur : pystr) (s : pystr) : list pystr :=
  match s with
  | [] => match cur with [] => [] | _ => [reverse cur] end
  | c :: s' =>
      if isspace c then
        match cur with
        | [] => split_ws_from [] s'
        | _ => reverse cur :: split_ws_from [] s'
        end
      else split_ws_from (c :: cur) s'
  end.

Definition split_ws (s : pystr) : list pystr := split_ws_from [] s.

Fixpoint startswith (s p : pystr) {struct p} : bool :=
  match p, s with
  | [], _ => true
  | _ :: _, [] => false
  | a :: p', b :: s' => (a =? b) && startswith s' p'
  end.

(** [p in s] *)
Fixpoint contains (s p : pystr) : bool :=
  startswith s p
  || match s with
     | [] => false
     | _ :: s' => contains s' p
     end.

(** [s.partition(sep)] when [sep] occurs: what is before and what is after
    its first occurrence. *)
Fixpoint find_first (sep s : pystr) {struct s} : option (pystr * pystr) :=
  if startswith s sep then Some ([], drop (length sep) s)
  else match s with
       | [] => None
       | c :: s' =>
           match find_first sep s' with
           | Some (a, b) => Some (c :: a, b)
           | None => None
           end
       end.

(** [s.split(sep, 1)] for a non-empty [sep] *)
Definition split1 (s sep : pystr) : list pystr :=
  match find_first sep s with
  | Some (a, b) => [a; b]
  | None => [s]
  end.

(** [str.isdigit()].  The digits of the model are the ASCII ones. *)
Definition isdigit_cp (c : N) : bool := (48 <=? c) && (c <=? 57).

Definition isdigit (s : pystr) : bool :=
  match s with
  | [] => false
  | _ => forallb isdigit_cp s
  end.

(** [int(s)]: optional sign, then digits, where single underscores may
    separate digits.  [None] stands for [ValueError].  [need_digit] is set
    at the start and after an underscore. *)
Fixpoint int_digits (acc : Z) (need_digit : bool) (s : pystr) : option Z :=
  match s with
  | [] => if need_digit then None else Some acc
  | c :: s' =>
      if isdigit_cp c then
        int_digits (10 * acc + Z.of_N (c - 48)) false s'
      else if (c =? 95) && negb need_digit then int_digits acc true s'
      else None
  end.

Definition int (s : pystr) : option Z :=
  match strip s with
  | 43 :: ds => int_digits 0 true ds
  | 45 :: ds => Z.opp <$> int_digits 0 true ds
  | ds => int_digits 0 true ds
  end.

(** [str(n)] for a natural number *)
Fixpoint of_uint (d : Decimal.uint) : pystr :=
  match d with
  | Decimal.Nil => []
  | Decimal.D0 d => 48 :: of_uint d
  | Decimal.D1 d => 49 :: of_uint d
  | Decimal.D2 d => 50 :: of_uint d
  | Decimal.D3 d => 51 :: of_uint d
  | Decimal.D4 d => 52 :: of_uint d
  | Decimal.D5 d => 53 :: of_uint d
  | Decimal.D6 d => 54 :: of_uint d
  | Decimal.D7 d => 55 :: of_uint d
  | Decimal.D8 d => 56 :: of_uint d
  | Decimal.D9 d => 57 :: of_uint d
  end.

Definition of_nat (n : nat) : pystr := of_uint (Nat.to_uint n).

(** [sep.join(parts)] *)
Fixpoint join (sep : pystr) (parts : list pystr) : pystr :=
  match parts with
  | [] => []
  | [p] => p
  | p :: rest => p ++ sep ++ join sep rest
  end.

(** [a < b] on strings: lexicographic on code points *)
Fixpoint ltb (a b : pystr) : bool :=
  match a, b with
  | _, [] => false
  | [], _ :: _ => true
  | x :: a', y :: b' => (x <? y) || ((x =? y) && ltb a' b')
  end.

End PyStr.

Notation "'py' s" :=
  (PyStr.of_string s) (at level 1, s at level 0, only parsing).


(** ** Data model *)

(** A news item is a dict of string fields ([id], [title], [url], [date],
    [source], [content]), read with [.get(key, default)]. *)
Abbreviation NewsItem := (gmap string pystr).

(** What [NewsAnalyzer.analyze_news] returns: a dict read with [.get]; a
    field is [None] when the key is absent. *)
Record Analysis := {
  topic : option pystr;
  sentiment : option pystr;
  key_points : option (list pystr);
  impact : option pystr
}.

(** What [NewsAnalyzer.summarize_news] returns.  The handler only iterates
    over the three sequences and formats each element, so an element is
    given by its [str()] rendering. *)
Record Summary := {
  trends : option (list pystr);
  overall_sentiment : option pystr;
  key_events : option (list pystr);
  recommendations : option (list pystr)
}.

(** The values stored in a response dict *)
Inductive pyval :=
| VNone
| VStr (s : pystr)
| VNews (items : list NewsItem)
| VAnalyses (results : list (NewsItem * Analysis))
| VSummary (summary : Summary).

Abbreviation Response := (gmap string pyval).

Record ContextEntry := {
  role : pystr;
  content : pystr;
  timestamp : pystr
}.

(** The [limit] argument: [None], an [int], or (guarded against by the
    latest-news handler) a [str]. *)
Inductive Limit :=
| LNone
| LInt (n : Z)
| LStr (s : pystr).

#[global] Instance Limit_eq_dec : EqDecision Limit.
Proof. solve_decision. Defined.

(** ** Exceptions and the monad of the methods *)

Inductive ExnClass := ValueError | IndexError | KeyError | TypeError | OtherError.

Record exn := Exn { exn_class : ExnClass; exn_msg : pystr }.

Inductive Result (A : Type) :=
| Ok (a : A)
| Raise (e : exn).
Arguments Ok {A} a.
Arguments Raise {A} e.

(** The calls made to the collaborators, in order *)
Inductive Call :=
| CallUpdateNews
| CallGetLatestNews (limit : Limit)
| CallSearchNews (query : pystr) (limit : Z)
| CallAnalyzeNews (news : NewsItem)
| CallSummarizeNews (items : list NewsItem).

#[global] Instance Call_eq_dec : EqDecision Call.
Proof. solve_decision. Defined.

(** The fields of a [DialogManager] instance; its [news_analyzer] is the
    [Analyzer] instance below. *)
Record DialogManager := {
  context_size : Z;
  context : list ContextEntry
}.

Record St (W : Type) := {
  self : DialogManager;
  world : W;
  calls : list Call
}.
Arguments self {W} s.
Arguments world {W} s.
Arguments calls {W} s.

Definition M (W A : Type) : Type := St W -> Result A * St W.

#[global] Instance M_ret W : MRet (M W) := fun A a s => (Ok a, s).

#[global] Instance M_bind W : MBind (M W) := fun A B f m s =>
  match m s with
  | (Ok a, s') => f a s'
  | (Raise e, s') => (Raise e, s')
  end.

Definition raise {W A} (e : exn) : M W A := fun s => (Raise e, s).

(** [try: m except Exception as e: h e] *)
Definition try_except {W A} (m : M W A) (h : exn -> M W A) : M W A := fun s =>
  match m s with
  | (Ok a, s') => (Ok a, s')
  | (Raise e, s') => h e s'
  end.

#[global] Instance ExnClass_eq_dec : EqDecision ExnClass.
Proof. solve_decision. Defined.

Definition is_class (cls : list ExnClass) (e : exn) : bool :=
  existsb (fun c => bool_decide (c = exn_class e)) cls.

(** [try: m except (cls...): h] *)
Definition try_except_of {W A} (cls : list ExnClass) (m : M W A) (h : M W A)
  : M W A := fun s =>
  match m s with
  | (Ok a, s') => (Ok a, s')
  | (Raise e, s') => if is_class cls e then h s' else (Raise e, s')
  end.

Definition get_self {W} : M W DialogManager := fun s => (Ok (self s), s).

Definition set_self {W} (dm : DialogManager) : M W unit := fun s =>
  (Ok tt, {| self := dm; world := world s; calls := calls s |}).

(** ** The collaborators, as the dialog manager sees them *)

(** The [news_parser] argument of [process_message] *)
Class NewsStore (W : Type) := {
  update_news : W -> Result (list NewsItem) * W;
  get_latest_news : Limit -> W -> Result (list NewsItem) * W;
  search_news : pystr -> Z -> W -> Result (list NewsItem) * W
}.

(** The [news_analyzer] field *)
Class Analyzer (W : Type) := {
  analyze_news : NewsItem -> W -> Result Analysis * W;
  summarize_news : list NewsItem -> W -> Result Summary * W
}.

(** [datetime.now().isoformat()] *)
Class Clock (W : Type) := {
  now_isoformat : W -> pystr * W
}.

(** A call to a collaborator: run it on the world and record it. *)
Definition call {W A} (c : Call) (op : W -> Result A * W) : M W A := fun s =>
  let '(r, w) := op (world s) in
  (r, {| self := self s; world := w; calls := calls s ++ [c] |}).

Definition now {W} `{Clock W} : M W pystr := fun s =>
  let '(t, w) := now_isoformat (world s) in
  (Ok t, {| self := self s; world := w; calls := calls s |}).

(** ** Python list slices *)

(** [l[i:]] *)
Definition slice_from {A} (l : list A) (i : Z) : list A :=
  if (i <? 0)%Z then drop (Z.to_nat (Z.of_nat (length l) + i)) l
  else drop (Z.to_nat i) l.

(** [l[:i]] *)
Definition slice_to {A} (l : list A) (i : Z) : list A :=
  if (i <? 0)%Z then take (Z.to_nat (Z.of_nat (length l) + i)) l
  else take (Z.to_nat i) l.

(** ** class DialogManager *)

Module Intent.
Inductive t :=
| get_all_news
| help
| greeting
| search_news
| analyze_news
| get_summary
| get_n_news
| get_latest_news.
End Intent.

Definition role_user : pystr := Eval vm_compute in py "user".
Definition role_system : pystr := Eval vm_compute in py "system".

(** The part of [add_to_context] after the entry is built: append it, then
    keep the last [context_size] entries when there are more. *)
Definition append_entry (e : ContextEntry) (dm : DialogManager) : DialogManager :=
  let ctx := context dm ++ [e] in
  {| context_size := context_size dm;
     context :=
       if (context_size dm <? Z.of_nat (length ctx))%Z
       then slice_from ctx (- context_size dm)
       else ctx |}.

Definition clear_context (dm : DialogManager) : DialogManager :=
  {| context_size := context_size dm; context := [] |}.

(** *** Keyword tables of [process_message] and [_determine_intent] *)

Definition update_commands : list pystr :=
  Eval vm_compute in [py "обновить новости"; py "обновить"; py "update"].

Definition kw_all_news : pystr := Eval vm_compute in py "все новости".
Definition kw_news : pystr := Eval vm_compute in py "новости".
Definition kw_latest : pystr := Eval vm_compute in py "последние".
Definition kw_news_stem : pystr := Eval vm_compute in py "новост".

Definition help_words : list pystr :=
  Eval vm_compute in
    [py "помощь"; py "помоги"; py "что ты умеешь"; py "команды"].

Definition greeting_words : list pystr :=
  Eval vm_compute in
    [py "привет"; py "здравствуй"; py "добрый день"; py "здравствуйте"].

Definition search_words : list pystr :=
  Eval vm_compute in [py "найди"; py "поиск"; py "искать"].

Definition analyze_words : list pystr :=
  Eval vm_compute in [py "анализ"; py "проанализируй"; py "анализировать"].

Definition summary_words : list pystr :=
  Eval vm_compute in [py "сводка"; py "резюме"; py "итоги"; py "сумма"].

Definition news_words : list pystr := [kw_news; kw_latest].

Definition search_prefixes : list pystr :=
  Eval vm_compute in [py "найди"; py "поиск"; py "искать"; py "найти"].

(** [any(word in message for word in words)] *)
Definition any_in (message : pystr) (words : list pystr) : bool :=
  existsb (PyStr.contains message) words.

Definition _determine_intent (dm : DialogManager) (message : pystr) : Intent.t :=
  let message := PyStr.strip (PyStr.lower message) in
  if PyStr.contains message kw_all_news then Intent.get_all_news
  else if any_in message help_words then Intent.help
  else if any_in message greeting_words then Intent.greeting
  else if any_in message search_words then Intent.search_news
  else if any_in message analyze_words then Intent.analyze_news
  else if any_in message summary_words then Intent.get_summary
  else if (PyStr.contains message kw_news || PyStr.contains message kw_latest)
          && existsb PyStr.isdigit (PyStr.split_ws message)
       then Intent.get_n_news
  else if any_in message news_words then Intent.get_latest_news
  else if (1 <? length (context dm))%nat then
    match context dm !! (length (context dm) - 2)%nat with
    | Some prev =>
        if PyStr.contains (PyStr.lower (content prev)) kw_news_stem
        then Intent.get_latest_news
        else Intent.get_latest_news
    | None => Intent.get_latest_news
    end
  else Intent.get_latest_news.

(** The [for prefix in [...]] loop of [_extract_search_query]; [None] when
    the loop ends without a [return]. *)
Fixpoint extract_loop (message : pystr) (prefixes : list pystr) : option pystr :=
  match prefixes with
  | [] => None
  | prefix :: rest =>
      if PyStr.contains message prefix then
        match PyStr.split1 message prefix with
        | _ :: part :: _ => Some (PyStr.strip part)
        | _ => extract_loop message rest
        end
      else extract_loop message rest
  end.

Definition _extract_search_query (message : pystr) : pystr :=
  let message := PyStr.lower message in
  match extract_loop message search_prefixes with
  | Some query => query
  | None => message
  end.

(** *** Texts of the responses *)

Definition nl : pystr := [10%N].

Definition ty_latest_news : pystr := Eval vm_compute in py "latest_news".
Definition ty_search_news : pystr := Eval vm_compute in py "search_news".
Definition ty_analyze_news : pystr := Eval vm_compute in py "analyze_news".
Definition ty_get_summary : pystr := Eval vm_compute in py "get_summary".
Definition ty_help : pystr := Eval vm_compute in py "help".
Definition ty_greeting : pystr := Eval vm_compute in py "greeting".
Definition ty_unknown : pystr := Eval vm_compute in py "unknown".
Definition ty_error : pystr := Eval vm_compute in py "error".

Definition response_types : list pystr :=
  [ty_latest_news; ty_search_news; ty_analyze_news; ty_get_summary;
   ty_help; ty_greeting; ty_unknown; ty_error].

Definition txt_updated : pystr :=
  Eval vm_compute in py "Новости успешно обновлены!".
Definition txt_update_failed : pystr :=
  Eval vm_compute in py "Произошла ошибка при обновлении новостей: ".
Definition txt_request_failed : pystr :=
  Eval vm_compute in py "Произошла ошибка при обработке запроса".
Definition txt_latest_failed : pystr :=
  Eval vm_compute in py "Произошла ошибка при получении новостей".
Definition txt_no_news : pystr :=
  Eval vm_compute in
    py "Нет доступных новостей. Попробуйте обновить новости командой 'обновить новости'.".
Definition txt_latest_head : pystr := Eval vm_compute in py "Вот последние ".
Definition txt_latest_head_end : pystr := Eval vm_compute in py " новостей:".
Definition txt_latest_foot : pystr :=
  Eval vm_compute in py "Для анализа введите 'анализ новостей'".
Definition txt_no_title : pystr := Eval vm_compute in py "Без заголовка".
Definition txt_source : pystr := Eval vm_compute in py "   Источник: ".
Definition txt_date : pystr := Eval vm_compute in py ", Дата: ".
Definition txt_unknown_source : pystr := Eval vm_compute in py "Неизвестно".
Definition txt_no_date : pystr := Eval vm_compute in py "Нет даты".
Definition txt_unknown_source_search : pystr :=
  Eval vm_compute in py "Неизвестный источник".
Definition txt_no_date_search : pystr := Eval vm_compute in py "Без даты".
Definition txt_not_found : pystr :=
  Eval vm_compute in py "К сожалению, я не нашел новостей по запросу '".
Definition txt_not_found_end : pystr :=
  Eval vm_compute in
    py "'. Попробуйте изменить запрос или получить последние новости командой 'последние новости'.".
Definition txt_search_head : pystr :=
  Eval vm_compute in py "Результаты поиска по запросу '".
Definition txt_search_head_end : pystr := Eval vm_compute in py "':".
Definition txt_search_foot : pystr :=
  Eval vm_compute in
    py "Для анализа этих новостей введите 'проанализировать новости'.".
Definition txt_nothing_to_analyze : pystr :=
  Eval vm_compute in
    py "К сожалению, у меня нет новостей для анализа. Попробуйте обновить новости командой 'обновить новости'.".
Definition txt_analysis_head : pystr :=
  Eval vm_compute in py "Результаты анализа последних новостей:".
Definition txt_undefined : pystr := Eval vm_compute in py "Не определено".
Definition txt_topic : pystr := Eval vm_compute in py "   Тема: ".
Definition txt_sentiment : pystr := Eval vm_compute in py "   Тональность: ".
Definition txt_key_points : pystr := Eval vm_compute in py "   Ключевые моменты: ".
Definition txt_impact : pystr := Eval vm_compute in py "   Потенциальное влияние: ".
Definition txt_analysis_foot : pystr :=
  Eval vm_compute in
    py "Для получения общей сводки введите 'сводка по новостям'.".
Definition txt_nothing_to_summarize : pystr :=
  Eval vm_compute in
    py "К сожалению, у меня нет новостей для создания сводки. Попробуйте обновить новости командой 'обновить новости'.".
Definition txt_no_recommendations : pystr :=
  Eval vm_compute in py "Нет рекомендаций".
Definition txt_summary_head : pystr :=
  Eval vm_compute in py "Сводка по последним экономическим новостям:".
Definition txt_trends : pystr := Eval vm_compute in py "Основные тренды и темы:".
Definition txt_overall : pystr := Eval vm_compute in py "Общая тональность: ".
Definition txt_events : pystr :=
  Eval vm_compute in py "Ключевые события и их влияние:".
Definition txt_recommendations : pystr := Eval vm_compute in py "Рекомендации:".
Definition txt_bullet : pystr := Eval vm_compute in py "- ".
Definition txt_comma : pystr := Eval vm_compute in py ", ".
Definition txt_dot : pystr := Eval vm_compute in py ". ".

Definition s_positive : pystr := Eval vm_compute in py "positive".
Definition s_negative : pystr := Eval vm_compute in py "negative".
Definition s_neutral : pystr := Eval vm_compute in py "neutral".
Definition s_mixed : pystr := Eval vm_compute in py "mixed".
Definition ru_positive : pystr := Eval vm_compute in py "Позитивная".
Definition ru_negative : pystr := Eval vm_compute in py "Негативная".
Definition ru_neutral : pystr := Eval vm_compute in py "Нейтральная".
Definition ru_mixed : pystr := Eval vm_compute in py "Смешанная".

Definition txt_help : pystr :=
  Eval vm_compute in
    py "Я - диалоговая система для анализа экономических новостей. Вот что я умею:

        1. Показывать последние новости:
           - 'новости' - 5 последних новостей
           - 'все новости' - полный список
        2. Искать новости по ключевым словам: 'найди [запрос]'
        3. Анализировать новости: 'анализ новостей'
        4. Создавать сводку: 'сводка'
        5. Обновлять новости: 'обновить новости'".

Definition txt_greeting : pystr :=
  Eval vm_compute in
    py "Здравствуйте! Я - диалоговая система для анализа экономических новостей.

Я могу показывать последние новости, искать новости по ключевым словам, анализировать их и создавать сводки.

Чем я могу вам помочь сегодня? Напишите 'помощь', чтобы узнать о моих возможностях.".

Definition txt_unknown : pystr :=
  Eval vm_compute in
    py "Извините, я не совсем понял ваш запрос. Вот что я умею:

1. Показывать последние новости - просто напишите 'новости' или 'последние новости'
2. Искать новости по ключевым словам - напишите 'найди [запрос]' или 'поиск [запрос]'
3. Анализировать новости - напишите 'анализ новостей' или 'проанализируй новости'
4. Создавать сводку по новостям - напишите 'сводка' или 'резюме новостей'

Попробуйте сформулировать запрос иначе или напишите 'помощь' для получения справки.".

(** The [{"text": ..., "data": ..., "type": ...}] dict of the handlers *)
Definition response (text : pystr) (data : pyval) (type : pystr) : Response :=
  {[ "text" := VStr text; "data" := data; "type" := VStr type ]}.

(** [{"text": ...}] *)
Definition text_only (text : pystr) : Response := {[ "text" := VStr text ]}.

(** The dict literals that localize a sentiment, with their [.get]
    default *)
Definition sentiment_text (sentiment : pystr) : pystr :=
  default ru_neutral
    (({[ s_positive := ru_positive; s_negative := ru_negative;
         s_neutral := ru_neutral ]} : gmap pystr pystr) !! sentiment).

Definition overall_sentiment_text (overall_sentiment : pystr) : pystr :=
  default ru_neutral
    (({[ s_positive := ru_positive; s_negative := ru_negative;
         s_neutral := ru_neutral; s_mixed := ru_mixed ]} : gmap pystr pystr)
       !! overall_sentiment).

Section Handlers.

Context {W : Type} `{NewsStore W, Analyzer W, Clock W}.

Definition add_to_context (message : pystr) (role : pystr) : M W unit :=
  t ← now;
  dm ← get_self;
  set_self
    (append_entry {| role := role; content := message; timestamp := t |} dm).

(** The numbered list of the latest-news handler, counting from [i] *)
Fixpoint render_latest (i : nat) (items : list NewsItem) : pystr :=
  match items with
  | [] => []
  | news :: rest =>
      (PyStr.of_nat i ++ txt_dot ++ default txt_no_title (news !! "title") ++ nl)
      ++ (txt_source ++ default txt_unknown_source (news !! "source")
          ++ txt_date ++ default txt_no_date (news !! "date") ++ nl ++ nl)
      ++ render_latest (S i) rest
  end.

(** The text and data built from a non-empty or empty list of news *)
Definition latest_news_response (latest_news : list NewsItem) : Response :=
  match latest_news with
  | [] => response txt_no_news VNone ty_latest_news
  | _ =>
      response
        (txt_latest_head ++ PyStr.of_nat (length latest_news)
         ++ txt_latest_head_end ++ nl ++ nl
         ++ render_latest 1 latest_news ++ txt_latest_foot)
        (VNews latest_news) ty_latest_news
  end.

(** The guard against a [str] limit *)
Definition guard_limit (limit : Limit) : M W Limit :=
  match limit with
  | LStr s =>
      if PyStr.isdigit s then
        match PyStr.int s with
        | Some n => mret (LInt n)
        | None => raise (Exn ValueError s)
        end
      else if bool_decide (PyStr.lower s = py "none") then mret LNone
      else mret (LInt 5)
  | _ => mret limit
  end.

Definition _handle_latest_news (limit : Limit) : M W Response :=
  try_except
    (limit ← guard_limit limit;
     latest_news ← call (CallGetLatestNews limit) (get_latest_news limit);
     mret (latest_news_response latest_news))
    (fun e => mret (response txt_latest_failed VNone ty_error)).

Fixpoint render_search (i : nat) (items : list NewsItem) : pystr :=
  match items with
  | [] => []
  | news :: rest =>
      (PyStr.of_nat i ++ txt_dot ++ default txt_no_title (news !! "title") ++ nl)
      ++ (txt_source ++ default txt_unknown_source_search (news !! "source")
          ++ txt_date ++ default txt_no_date_search (news !! "date")
          ++ nl ++ nl)
      ++ render_search (S i) rest
  end.

Definition search_response (query : pystr) (search_results : list NewsItem)
  : Response :=
  match search_results with
  | [] =>
      response (txt_not_found ++ query ++ txt_not_found_end)
        VNone ty_search_news
  | _ =>
      response
        (txt_search_head ++ query ++ txt_search_head_end ++ nl ++ nl
         ++ render_search 1 search_results ++ txt_search_foot)
        (VNews search_results) ty_search_news
  end.

Definition _handle_search_news (query : pystr) (limit : Z) : M W Response :=
  search_results ← call (CallSearchNews query limit) (search_news query limit);
  mret (search_response query search_results).

Fixpoint render_analysis (i : nat) (results : list (NewsItem * Analysis))
  : pystr :=
  match results with
  | [] => []
  | (news, analysis) :: rest =>
      let title := default txt_no_title (news !! "title") in
      let topic := default txt_undefined (topic analysis) in
      let sentiment := default s_neutral (sentiment analysis) in
      let key_points := default [txt_undefined] (key_points analysis) in
      let impact := default txt_undefined (impact analysis) in
      (PyStr.of_nat i ++ txt_dot ++ title ++ nl)
      ++ (txt_topic ++ topic ++ nl)
      ++ (txt_sentiment ++ sentiment_text sentiment ++ nl)
      ++ (txt_key_points ++ PyStr.join txt_comma key_points ++ nl)
      ++ (txt_impact ++ impact ++ nl ++ nl)
      ++ render_analysis (S i) rest
  end.

(** The loop that analyzes each item in turn *)
Fixpoint analyze_each (items : list NewsItem) : M W (list (NewsItem * Analysis)) :=
  match items with
  | [] => mret []
  | news :: rest =>
      analysis ← call (CallAnalyzeNews news) (analyze_news news);
      results ← analyze_each rest;
      mret ((news, analysis) :: results)
  end.

Definition analysis_response (analysis_results : list (NewsItem * Analysis))
  : Response :=
  response
    (txt_analysis_head ++ nl ++ nl
     ++ render_analysis 1 analysis_results ++ txt_analysis_foot)
    (VAnalyses analysis_results) ty_analyze_news.

Definition _handle_analyze_news (limit : Z) : M W Response :=
  latest_news ← call (CallGetLatestNews (LInt limit)) (get_latest_news (LInt limit));
  match latest_news with
  | [] => mret (response txt_nothing_to_analyze VNone ty_analyze_news)
  | _ =>
      analysis_results ← analyze_each latest_news;
      mret (analysis_response analysis_results)
  end.

(** [for x in xs: text += f"- {x}\n"] *)
Definition render_bullets (xs : list pystr) : pystr :=
  concat (map (fun x => txt_bullet ++ x ++ nl) xs).

Definition summary_response (summary : Summary) : Response :=
  let trends := default [txt_undefined] (trends summary) in
  let overall_sentiment := default s_neutral (overall_sentiment summary) in
  let key_events := default [txt_undefined] (key_events summary) in
  let recommendations :=
    default [txt_no_recommendations] (recommendations summary) in
  response
    (txt_summary_head ++ nl ++ nl
     ++ txt_trends ++ nl ++ render_bullets trends
     ++ nl ++ txt_overall
     ++ overall_sentiment_text overall_sentiment ++ nl ++ nl
     ++ txt_events ++ nl ++ render_bullets key_events
     ++ nl ++ txt_recommendations ++ nl
     ++ render_bullets recommendations)
    (VSummary summary) ty_get_summary.

Definition _handle_get_summary (limit : Z) : M W Response :=
  latest_news ← call (CallGetLatestNews (LInt limit)) (get_latest_news (LInt limit));
  match latest_news with
  | [] => mret (response txt_nothing_to_summarize VNone ty_get_summary)
  | _ =>
      summary ← call (CallSummarizeNews latest_news) (summarize_news latest_news);
      mret (summary_response summary)
  end.

Definition _handle_help : M W Response :=
  mret (response txt_help VNone ty_help).

Definition _handle_greeting : M W Response :=
  mret (response txt_greeting VNone ty_greeting).

Definition _handle_unknown : M W Response :=
  mret (response txt_unknown VNone ty_unknown).

(** [response["text"]], as the content of a context entry *)
Definition get_text (r : Response) : M W pystr :=
  match r !! "text" with
  | Some (VStr text) => mret text
  | Some _ => raise (Exn TypeError [])
  | None => raise (Exn KeyError (py "text"))
  end.

(** [int(message.split()[-1])] *)
Definition int_of_last_word (message : pystr) : M W Z :=
  match last (PyStr.split_ws message) with
  | None => raise (Exn IndexError [])
  | Some word =>
      match PyStr.int word with
      | Some n => mret n
      | None => raise (Exn ValueError word)
      end
  end.

(** The branch of [process_message] for the update command *)
Definition update_branch : M W Response :=
  try_except
    (_ ← call CallUpdateNews update_news; mret (text_only txt_updated))
    (fun e => mret (text_only (txt_update_failed ++ exn_msg e))).

(** The branch of [process_message] for [intent == "get_latest_news"]:
    the guarded block, then the second block, which sets [response]
    again. *)
Definition latest_branch (message : pystr) : M W Response :=
  _ ← try_except
        (if PyStr.contains (PyStr.lower message) kw_all_news then
           _handle_latest_news LNone
         else if PyStr.contains (PyStr.lower message) kw_news then
           match PyStr.split_ws (PyStr.lower message) with
           | _ :: word :: _ =>
               if PyStr.isdigit word then
                 match PyStr.int word with
                 | Some n => _handle_latest_news (LInt n)
                 | None => raise (Exn ValueError word)
                 end
               else _handle_latest_news (LInt 5)
           | _ => _handle_latest_news (LInt 5)
           end
         else _handle_latest_news (LInt 5))
        (fun e => mret (response txt_request_failed VNone ty_error));
  if PyStr.contains (PyStr.lower message) kw_all_news then
    _handle_latest_news LNone
  else if PyStr.contains (PyStr.lower message) kw_news then
    try_except_of [ValueError; IndexError]
      (limit ← int_of_last_word message; _handle_latest_news (LInt limit))
      (_handle_latest_news (LInt 5))
  else _handle_latest_news (LInt 5).

(** The branch of [process_message] that classifies the message *)
Definition intent_branch (message : pystr) : M W Response :=
  dm ← get_self;
  match _determine_intent dm message with
  | Intent.get_latest_news => latest_branch message
  | Intent.search_news =>
      _handle_search_news (_extract_search_query message) 5
  | Intent.analyze_news => _handle_analyze_news 3
  | Intent.get_summary => _handle_get_summary 5
  | Intent.help => _handle_help
  | Intent.greeting => _handle_greeting
  | _ => _handle_unknown
  end.

Definition is_update_command (message : pystr) : bool :=
  bool_decide (PyStr.lower message ∈ update_commands).

Definition process_message (message : pystr) : M W Response :=
  _ ← add_to_context message role_user;
  response ← (if is_update_command message then update_branch
              else intent_branch message);
  text ← get_text response;
  _ ← add_to_context text role_system;
  mret response.

End Handlers.

(** ** class NewsParser *)

Module NewsParser.

(** [news_cache] is a dict from item id to item; its values are read in
    insertion order.  [scraped] stands for what [_parse_rbc] and
    [_parse_ria] return over all the sources at the next update (they read
    the network and catch their own errors). *)
Record t := {
  news_cache : list (pystr * NewsItem);
  scraped : list NewsItem
}.

Definition values (cache : list (pystr * NewsItem)) : list NewsItem :=
  map snd cache.

(** [d[k] = v] *)
Fixpoint dict_set (k : pystr) (v : NewsItem) (d : list (pystr * NewsItem))
  : list (pystr * NewsItem) :=
  match d with
  | [] => [(k, v)]
  | (k', v') :: d' =>
      if bool_decide (k = k') then (k, v) :: d'
      else (k', v') :: dict_set k v d'
  end.

(** [{news["id"]: news for news in all_news}]; [None] is the [KeyError]
    of an item without id. *)
Fixpoint by_id (all_news : list NewsItem) (d : list (pystr * NewsItem))
  : option (list (pystr * NewsItem)) :=
  match all_news with
  | [] => Some d
  | news :: rest =>
      match news !! "id" with
      | Some id => by_id rest (dict_set id news d)
      | None => None
      end
  end.

(** The body is inside [try: ... except Exception: return []]; saving the
    cache to disk catches its own errors. *)
Definition update_news (p : t) : list NewsItem * t :=
  match by_id (scraped p) [] with
  | Some cache => (scraped p, {| news_cache := cache; scraped := scraped p |})
  | None => ([], p)
  end.

Definition date_key (x : NewsItem) : pystr := default [] (x !! "date").

(** [sorted(..., key=date_key, reverse=True)] is stable: items with equal
    dates keep their order.  [x] is put in front of the first item that is
    not later than it. *)
Fixpoint insert_desc (x : NewsItem) (l : list NewsItem) : list NewsItem :=
  match l with
  | [] => [x]
  | y :: l' =>
      if PyStr.ltb (date_key x) (date_key y) then y :: insert_desc x l'
      else x :: l
  end.

Definition sorted_desc (l : list NewsItem) : list NewsItem :=
  foldr insert_desc [] l.

(** Truth value of a limit, as in [... if limit else ...] *)
Definition truthy (limit : Limit) : bool :=
  match limit with
  | LNone => false
  | LInt n => negb (n =? 0)%Z
  | LStr s => negb (bool_decide (s = []))
  end.

Definition get_latest_news (cache : list (pystr * NewsItem)) (limit : Limit)
  : list NewsItem :=
  let limit := match limit with LStr _ => LInt 5 | _ => limit end in
  let sorted_news := sorted_desc (values cache) in
  if truthy limit then
    match limit with
    | LInt n => slice_to sorted_news n
    | _ => sorted_news
    end
  else sorted_news.

(** The loop of [search_news], with the results found so far *)
Fixpoint search_loop (query : pystr) (limit : Z) (items results : list NewsItem)
  : list NewsItem :=
  match items with
  | [] => results
  | news :: rest =>
      let title := PyStr.lower (default [] (news !! "title")) in
      let content := PyStr.lower (default [] (news !! "content")) in
      if PyStr.contains title query || PyStr.contains content query then
        let results := results ++ [news] in
        if (limit <=? Z.of_nat (length results))%Z then results
        else search_loop query limit rest results
      else search_loop query limit rest results
  end.

Definition search_news (cache : list (pystr * NewsItem)) (query : pystr)
  (limit : Z) : list NewsItem :=
  search_loop (PyStr.lower query) limit (values cache) [].

#[global] Instance store : NewsStore t := {
  update_news p := let '(r, p') := update_news p in (Ok r, p');
  get_latest_news limit p := (Ok (get_latest_news (news_cache p) limit), p);
  search_news query limit p := (Ok (search_news (news_cache p) query limit), p)
}.

End NewsParser.

(** ** Scripted collaborators

    A world whose collaborators answer from a fixed script and keep no
    state: the test double used to run [process_message] on concrete
    inputs. *)

Module Script.

Record t := {
  on_update : Result (list NewsItem);
  on_latest : Limit -> Result (list NewsItem);
  on_search : pystr -> Z -> Result (list NewsItem);
  on_analyze : NewsItem -> Result Analysis;
  on_summarize : list NewsItem -> Result Summary;
  time : pystr
}.

#[global] Instance store : NewsStore t := {
  update_news w := (on_update w, w);
  get_latest_news limit w := (on_latest w limit, w);
  search_news query limit w := (on_search w query limit, w)
}.

#[global] Instance analyzer : Analyzer t := {
  analyze_news news w := (on_analyze w news, w);
  summarize_news items w := (on_summarize w items, w)
}.

#[global] Instance clock : Clock t := {
  now_isoformat w := (time w, w)
}.

End Script.

(** A fresh manager, as [__init__] leaves it, in a world [w] *)
Definition init {W} (context_size : Z) (w : W) : St W :=
  {| self := {| context_size := context_size; context := [] |};
     world := w; calls := [] |}.

(** Running a method of a manager [dm] in a world [w], with an empty record
    of calls *)
Definition run {W A} (m : M W A) (dm : DialogManager) (w : W)
  : Result A * St W :=
  m {| self := dm; world := w; calls := [] |}.

(** A sequence of [add_to_context] calls, by the entries they build *)
Definition append_all (es : list ContextEntry) (dm : DialogManager)
  : DialogManager :=
  foldl (fun dm e => append_entry e dm) dm es.

(** ** The classifier as a table of rules

    The rules of the classifier written the way the specification lists
    them: an ordered table of predicate and intent, the first predicate that
    holds on the normalized text decides, and news retrieval is the answer
    when none holds (with or without a previous entry about news). *)

Definition intent_rules : list ((pystr -> bool) * Intent.t) :=
  [ (fun text => PyStr.contains text kw_all_news, Intent.get_all_news);
    (fun text => any_in text help_words, Intent.help);
    (fun text => any_in text greeting_words, Intent.greeting);
    (fun text => any_in text search_words, Intent.search_news);
    (fun text => any_in text analyze_words, Intent.analyze_news);
    (fun text => any_in text summary_words, Intent.get_summary);
    (fun text =>
       (PyStr.contains text kw_news || PyStr.contains text kw_latest)
       && existsb PyStr.isdigit (PyStr.split_ws text), Intent.get_n_news);
    (fun text => PyStr.contains text kw_news || PyStr.contains text kw_latest,
     Intent.get_latest_news) ].

Fixpoint first_match (rules : list ((pystr -> bool) * Intent.t)) (text : pystr)
  : option Intent.t :=
  match rules with
  | [] => None
  | (holds, intent) :: rest =>
      if holds text then Some intent else first_match rest text
  end.

Definition classify_by_rules (message : pystr) : Intent.t :=
  default Intent.get_latest_news
    (first_match intent_rules (PyStr.strip (PyStr.lower message))).

(** ** Sample data for the concrete runs *)

Module Sample.

Definition item (id date : string) : NewsItem :=
  {[ "id" := py id; "title" := py id; "date" := py date;
     "source" := py "RBC" ]}.

Definition entry (role content : string) : ContextEntry :=
  {| role := py role; content := py content; timestamp := py "t" |}.

Definition failure : exn := Exn OtherError (py "connection refused").

Definition odd_analysis : Analysis :=
  {| topic := Some (py "rates"); sentiment := Some (py "bullish");
     key_points := Some [py "a"; py "b"]; impact := None |}.

Definition odd_summary : Summary :=
  {| trends := None; overall_sentiment := Some (py "bullish");
     key_events := None; recommendations := None |}.

(** Collaborators that answer every call *)
Definition calm : Script.t :=
  {| Script.on_update := Ok [];
     Script.on_latest := fun _ => Ok [item "n1" "2024-05-01"];
     Script.on_search := fun _ _ => Ok [];
     Script.on_analyze := fun _ => Ok odd_analysis;
     Script.on_summarize := fun _ => Ok odd_summary;
     Script.time := py "2024-05-01T10:00:00" |}.

(** Collaborators whose every call raises *)
Definition broken : Script.t :=
  {| Script.on_update := Raise failure;
     Script.on_latest := fun _ => Raise failure;
     Script.on_search := fun _ _ => Raise failure;
     Script.on_analyze := fun _ => Raise failure;
     Script.on_summarize := fun _ => Raise failure;
     Script.time := py "2024-05-01T10:00:00" |}.

Definition cache : list (pystr * NewsItem) :=
  [ (py "n1", item "n1" "2024-05-01"); (py "n2", item "n2" "2024-05-03");
    (py "n3", item "n3" "2024-05-02") ].

Definition parser : NewsParser.t :=
  {| NewsParser.news_cache := cache; NewsParser.scraped := [] |}.

End Sample.

(** ** A small program logic for the methods *)

Section Logic.

Context {W : Type}.

(** [wp m Q s]: run from [s], [m] ends (returning or raising) in a result
    and a state that satisfy [Q]. *)
Definition wp {A} (m : M W A) (Q : Result A -> St W -> Prop) (s : St W)
  : Prop :=
  Q (m s).1 (m s).2.

(** [s'] is [s] after some collaborator calls other than a refresh: the
    manager is the same and the record of calls has grown by calls that are
    not [update_news]. *)
Definition extends (s s' : St W) : Prop :=
  self s' = self s /\
  exists new, calls s' = calls s ++ new /\ CallUpdateNews ∉ new.

(** The three-field shape of a response *)
Definition full_response (r : Response) : Prop :=
  exists text data type,
    r = response text data type /\ type ∈ response_types.

(** What every handler of the classified branch guarantees, from a state
    [s0] on *)
Definition handler_post (s0 : St W) (r : Result Response) (s' : St W)
  : Prop :=
  extends s0 s' /\ forall resp, r = Ok resp -> full_response resp.

End Logic.

(** * Further parts of the program *)

(** The code points [str.lower()] changes in the model *)
Definition is_upper_cp (c : N) : Prop :=
  (65 <= c <= 90 \/ (192 <= c <= 222 /\ c <> 215) \/ 1024 <= c <= 1071)%N.

(** A text of white space only *)
Definition all_space (s : pystr) : Prop :=
  Forall (fun c => PyStr.isspace c = true) s.

(** The limit of the second query of the branch for [get_latest_news]:
    [int(message.split()[-1])] when the lower-cased message has the word for
    news and the last word reads as an integer, else 5 *)
Definition second_limit (message : pystr) : Limit :=
  if PyStr.contains (PyStr.lower message) kw_news then
    match last (PyStr.split_ws message) with
    | Some word =>
        match PyStr.int word with
        | Some n => LInt n
        | None => LInt 5
        end
    | None => LInt 5
    end
  else LInt 5.

(** The intents whose handlers call the collaborators outside of any
    [try] *)
Definition may_raise (intent : Intent.t) : bool :=
  match intent with
  | Intent.search_news | Intent.analyze_news | Intent.get_summary => true
  | _ => false
  end.

(** A limit as [process_message] passes it: an [int] or [None] *)
Definition int_or_none (limit : Limit) : Prop :=
  match limit with LStr _ => False | _ => True end.

(** The response the latest-news handler builds from what the store
    answered *)
Definition latest_outcome (r : Result (list NewsItem)) : Response :=
  match r with
  | Ok items => latest_news_response items
  | Raise _ => response txt_latest_failed VNone ty_error
  end.

(** [x] is not earlier than [y], by the string order on dates *)
Definition date_ge (x y : NewsItem) : Prop :=
  PyStr.ltb (NewsParser.date_key x) (NewsParser.date_key y) = false.

(** The test of the loop of [search_news] on one item, for a lower-cased
    query *)
Definition news_matches (query : pystr) (news : NewsItem) : bool :=
  PyStr.contains (PyStr.lower (default [] (news !! "title"))) query
  || PyStr.contains (PyStr.lower (default [] (news !! "content"))) query.

(** [d.get(k)] *)
Fixpoint dict_get (k : pystr) (d : list (pystr * NewsItem)) : option NewsItem :=
  match d with
  | [] => None
  | (k', v) :: d' => if bool_decide (k = k') then Some v else dict_get k d'
  end.

(** The number of items [sorted_news[:n]] keeps, for [n] other than 0 *)
Definition kept (n : Z) (size : nat) : nat :=
  if (n <? 0)%Z then Z.to_nat (Z.of_nat size + n) else Z.to_nat n.

(** [s.split(sep)] for a one-character [sep]; [cur] is the part being
    read, most recent code point first. *)
Fixpoint split_char_from (sep : N) (cur s : pystr) : list pystr :=
  match s with
  | [] => [reverse cur]
  | c :: s' =>
      if (c =? sep)%N then reverse cur :: split_char_from sep [] s'
      else split_char_from sep (c :: cur) s'
  end.

Definition split_char (sep : N) (s : pystr) : list pystr :=
  split_char_from sep [] s.

Section AnalyzerRuns.

Context {W : Type} `{Analyzer W}.

(** [analyzed w items results w']: starting in the world [w] the analyzer
    answers for every item of [items], asked in order, each call in the
    world the call before left behind; [results] pairs every item with the
    analysis returned for it and [w'] is the world after the last call. *)
Inductive analyzed
  : W -> list NewsItem -> list (NewsItem * Analysis) -> W -> Prop :=
| analyzed_nil w : analyzed w [] [] w
| analyzed_cons w news analysis w1 rest results w2 :
    analyze_news news w = (Ok analysis, w1) ->
    analyzed w1 rest results w2 ->
    analyzed w (news :: rest) ((news, analysis) :: results) w2.

End AnalyzerRuns.

Section GenerateId.

(** The two digests [hashlib.md5(...).hexdigest()[:10]]: of the current
    time, and of a text. *)
Variable now_digest : pystr.
Variable digest : pystr -> pystr.

(** [NewsParser._generate_id] *)
Definition _generate_id (text : pystr) : pystr :=
  match text with
  | [] => now_digest
  | _ =>
      match last (split_char 47 text) with
      | Some part => part
      | None => digest text
      end
  end.

End GenerateId.

(** What one item reads like in the list of the latest news, under the
    number [i] *)
Definition latest_entry (i : nat) (news : NewsItem) : pystr :=
  PyStr.of_nat i ++ txt_dot ++ default txt_no_title (news !! "title") ++ nl
  ++ txt_source ++ default txt_unknown_source (news !! "source")
  ++ txt_date ++ default txt_no_date (news !! "date") ++ nl ++ nl.

(** The same in the list of search results, which has its own defaults *)
Definition search_entry (i : nat) (news : NewsItem) : pystr :=
  PyStr.of_nat i ++ txt_dot ++ default txt_no_title (news !! "title") ++ nl
  ++ txt_source ++ default txt_unknown_source_search (news !! "source")
  ++ txt_date ++ default txt_no_date_search (news !! "date") ++ nl ++ nl.

(** ** class DialogInterface

    The console is a list of the lines the user types; when it is used up
    the prompt raises [EOFError], which [get_user_input] turns into the exit
    command.  What [display_message] shows is collected in order. *)

Record Shown := {
  message_type : pystr;
  message : pystr
}.

Definition exit_commands : list pystr :=
  Eval vm_compute in [py "выход"; py "exit"; py "quit"; py "q"].


Definition txt_command_failed : pystr :=
  Eval vm_compute in py "Ошибка выполнения команды. Попробуйте снова.".

Section Interface.

Context {W : Type} `{NewsStore W, Analyzer W, Clock W}.

(** The [while self.running] loop of [run], one line per round *)
Fixpoint loop (lines : list pystr) (s : St W) : list Shown * St W :=
  match lines with
  | [] => ([], s)
  | line :: rest =>
      let user_input := PyStr.strip line in
      if bool_decide (PyStr.lower (PyStr.strip user_input) ∈ exit_commands)
      then ([], s)
      else
        match PyStr.strip user_input with
        | [] => loop rest s
        | _ =>
            let '(r, s1) :=
              (response ← process_message user_input; get_text response) s in
            let reply :=
              match r with
              | Ok text => text
              | Raise _ => txt_command_failed
              end in
            let '(shown, s2) := loop rest s1 in
            ({| message_type := role_user; message := user_input |}
               :: {| message_type := role_system; message := reply |}
               :: shown, s2)
        end
  end.


End Interface.


(** ** class NewsAnalyzer *)

(** The double quotes of a text of the source are written as backquotes in
    the literals of this file. *)
Definition with_quotes (s : pystr) : pystr :=
  map (fun c => if (c =? 96)%N then 34%N else c) s.

Definition txt_prompt_head : pystr :=
  Eval vm_compute in
    py "Проанализируй экономическую новость и предоставь структурированный анализ в формате JSON:

Новость: ".
Definition txt_prompt_source : pystr := Eval vm_compute in py "
Источник: ".
Definition txt_prompt_date : pystr := Eval vm_compute in py "
Дата: ".
Definition txt_prompt_url : pystr := Eval vm_compute in py "
URL: ".
Definition txt_prompt_format : pystr :=
  Eval vm_compute in
    with_quotes (py "

Требуемый формат ответа:
{
  `topic`: `основная тема новости (например, монетарная политика, фондовый рынок, инфляция и т.д.)`,
  `sentiment`: `тональность новости (positive/negative/neutral)`,
  `key_points`: [`ключевой момент 1`, `ключевой момент 2`, `ключевой момент 3`],
  `impact`: `потенциальное влияние на экономику и рынки`
}

Ответ должен быть только в формате JSON без дополнительного текста.").

Module NewsAnalyzer.

(** [analysis_cache], and the number of requests sent to the language model
    so far *)
Record t := {
  analysis_cache : gmap pystr Analysis;
  asked : nat
}.

(** [{}] *)
Definition empty_analysis : Analysis :=
  {| topic := None; sentiment := None; key_points := None; impact := None |}.

(** The stub returned when the request fails *)
Definition fallback_analysis : Analysis :=
  Eval vm_compute in
    {| topic := Some (py "не удалось определить");
       sentiment := Some (py "neutral");
       key_points := Some [py "Не удалось проанализировать новость"];
       impact := Some (py "Не удалось определить влияние") |}.

(** [s.find(c)], [None] for -1 *)
Fixpoint find_cp (c : N) (s : pystr) : option nat :=
  match s with
  | [] => None
  | x :: s' => if (x =? c)%N then Some 0 else S <$> find_cp c s'
  end.

(** [s.rfind(c)], [None] for -1 *)
Definition rfind_cp (c : N) (s : pystr) : option nat :=
  (fun i => length s - 1 - i) <$> find_cp c (reverse s).

(** The text handed to [json.loads] by [_extract_json]: from the first
    opening brace to the last closing brace when both occur, else the whole
    text. *)
Definition json_candidate (text : pystr) : pystr :=
  match find_cp 123 text, rfind_cp 125 text with
  | Some start_idx, Some last_idx =>
      take (S last_idx - start_idx) (drop start_idx text)
  | _, _ => text
  end.

Definition prompt (news : NewsItem) : pystr :=
  txt_prompt_head ++ default [] (news !! "title")
  ++ txt_prompt_source ++ default [] (news !! "source")
  ++ txt_prompt_date ++ default [] (news !! "date")
  ++ txt_prompt_url ++ default [] (news !! "url")
  ++ txt_prompt_format.

(** [news_id and news_id in self.analysis_cache] selects the cached
    analysis; an item without id, or with the empty id, has none. *)
Definition cached (a : t) (news : NewsItem) : option Analysis :=
  match news !! "id" with
  | Some (c :: id) => analysis_cache a !! (c :: id)
  | _ => None
  end.

Section Oracles.

(** [json.loads] on a text that holds an analysis; [None] when it raises *)
Variable json_loads : pystr -> option Analysis.

(** The answer of the language model to the request number [n] with a
    given prompt: the content of the reply, or an exception *)
Variable chat : nat -> pystr -> Result pystr.

Definition _extract_json (text : pystr) : Analysis :=
  default empty_analysis (json_loads (json_candidate text)).

Definition analyze_news (a : t) (news : NewsItem) : Analysis * t :=
  match cached a news with
  | Some analysis => (analysis, a)
  | None =>
      match chat (asked a) (prompt news) with
      | Ok result_text =>
          let result_json := _extract_json result_text in
          (result_json,
           {| analysis_cache :=
                match news !! "id" with
                | Some (c :: id) => <[c :: id := result_json]> (analysis_cache a)
                | _ => analysis_cache a
                end;
              asked := S (asked a) |})
      | Raise _ =>
          (fallback_analysis,
           {| analysis_cache := analysis_cache a; asked := S (asked a) |})
      end
  end.

(** [analyze_news_batch]: the items are analysed in order; each result pairs
    the item (key [news]) with its analysis (key [analysis]) *)
Fixpoint analyze_news_batch (a : t) (news_items : list NewsItem)
  : list (NewsItem * Analysis) * t :=
  match news_items with
  | [] => ([], a)
  | news :: rest =>
      let '(analysis, a1) := analyze_news a news in
      let '(results, a2) := analyze_news_batch a1 rest in
      ((news, analysis) :: results, a2)
  end.

End Oracles.

End NewsAnalyzer.

(** ** More sample data *)

Module Fixture.

(** Two scraped items share the id [n1] *)
Definition scraped : list NewsItem :=
  [ Sample.item "n1" "2024-05-01"; Sample.item "n2" "2024-05-03";
    Sample.item "n1" "2024-05-04" ].

Definition parser : NewsParser.t :=
  {| NewsParser.news_cache := Sample.cache; NewsParser.scraped := scraped |}.

Definition untitled : NewsItem := {[ "title" := py "no id" ]}.

Definition parser_with_untitled : NewsParser.t :=
  {| NewsParser.news_cache := Sample.cache;
     NewsParser.scraped := [Sample.item "n1" "2024-05-01"; untitled] |}.

Definition json_loads (text : pystr) : option Analysis :=
  if bool_decide (text = py "{}") then Some NewsAnalyzer.empty_analysis
  else None.

Definition chat_up (n : nat) (prompt : pystr) : Result pystr :=
  Ok (py "Here it is: {}").

Definition chat_down (n : nat) (prompt : pystr) : Result pystr :=
  Raise Sample.failure.

Definition analyzer : NewsAnalyzer.t :=
  {| NewsAnalyzer.analysis_cache := {[ py "n2" := Sample.odd_analysis ]};
     NewsAnalyzer.asked := 0 |}.

(** Collaborators with three items to show, where the analysis of the
    second one raises *)
Definition flaky : Script.t :=
  {| Script.on_update := Ok [];
     Script.on_latest := fun _ =>
       Ok [Sample.item "n1" "2024-05-01"; Sample.item "n2" "2024-05-03";
           Sample.item "n3" "2024-05-02"];
     Script.on_search := fun _ _ => Ok [];
     Script.on_analyze := fun news =>
       if bool_decide (news !! "id" = Some (py "n2"))
       then Raise Sample.failure else Ok Sample.odd_analysis;
     Script.on_summarize := fun _ => Ok Sample.odd_summary;
     Script.time := py "2024-05-01T10:00:00" |}.

End Fixture.

(** * Properties *)

(** ** Rules of the program logic *)

Section LogicRules.

Context {W : Type}.
Implicit Types s : St W.

Lemma wp_ret {A} (a : A) (Q : Result A -> St W -> Prop) s :
  Q (Ok a) s -> wp (mret a) Q s.
Proof. done. Qed.

Lemma wp_raise {A} e (Q : Result A -> St W -> Prop) s :
  Q (Raise e) s -> wp (raise e) Q s.
Proof. done. Qed.

Lemma wp_bind {A B} (m : M W A) (f : A -> M W B) Q s :
  wp m (fun r s' =>
          match r with
          | Ok a => wp (f a) Q s'
          | Raise e => Q (Raise e) s'
          end) s ->
  wp (m ≫= f) Q s.
Proof.
  unfold wp, mbind, M_bind. by destruct (m s) as [[a|e] s'].
Qed.

Lemma wp_try_except {A} (m : M W A) h Q s :
  wp m (fun r s' =>
          match r with
          | Ok a => Q (Ok a) s'
          | Raise e => wp (h e) Q s'
          end) s ->
  wp (try_except m h) Q s.
Proof.
  unfold wp, try_except. by destruct (m s) as [[a|e] s'].
Qed.

Lemma wp_try_except_of {A} cls (m : M W A) h Q s :
  wp m (fun r s' =>
          match r with
          | Ok a => Q (Ok a) s'
          | Raise e => if is_class cls e then wp h Q s' else Q (Raise e) s'
          end) s ->
  wp (try_except_of cls m h) Q s.
Proof.
  unfold wp, try_except_of. destruct (m s) as [[a|e] s']; simpl; [done|].
  by destruct (is_class cls e).
Qed.

Lemma wp_call {A} c (op : W -> Result A * W) Q s :
  (forall r w,
      Q r {| self := self s; world := w; calls := calls s ++ [c] |}) ->
  wp (call c op) Q s.
Proof.
  intros HQ. unfold wp, call. destruct (op (world s)) as [r w]. apply HQ.
Qed.

Lemma wp_now `{Clock W} (Q : Result pystr -> St W -> Prop) s :
  (forall t w,
      Q (Ok t) {| self := self s; world := w; calls := calls s |}) ->
  wp now Q s.
Proof.
  intros HQ. unfold wp, now. destruct (now_isoformat (world s)) as [t w].
  apply HQ.
Qed.

Lemma wp_get_self (Q : Result DialogManager -> St W -> Prop) s :
  Q (Ok (self s)) s -> wp get_self Q s.
Proof. done. Qed.

Lemma wp_set_self dm (Q : Result unit -> St W -> Prop) s :
  Q (Ok tt) {| self := dm; world := world s; calls := calls s |} ->
  wp (set_self dm) Q s.
Proof. done. Qed.

Lemma wp_mono {A} (m : M W A) (Q Q' : Result A -> St W -> Prop) s :
  (forall r s', Q r s' -> Q' r s') -> wp m Q s -> wp m Q' s.
Proof. unfold wp. auto. Qed.

Lemma wp_run {A} (m : M W A) Q s r s' :
  wp m Q s -> m s = (r, s') -> Q r s'.
Proof. unfold wp. intros HQ Heq. by rewrite Heq in HQ. Qed.

Lemma extends_refl s : extends s s.
Proof.
  split; [done|]. exists []. rewrite app_nil_r. split; [done|].
  apply not_elem_of_nil.
Qed.

Lemma extends_trans s1 s2 s3 :
  extends s1 s2 -> extends s2 s3 -> extends s1 s3.
Proof.
  intros [Hs1 (n1 & Hc1 & Hn1)] [Hs2 (n2 & Hc2 & Hn2)].
  split; [congruence|]. exists (n1 ++ n2).
  rewrite Hc2, Hc1, app_assoc. split; [done|].
  rewrite elem_of_app. tauto.
Qed.

Lemma extends_call s0 s c w :
  c <> CallUpdateNews ->
  extends s0 s ->
  extends s0 {| self := self s; world := w; calls := calls s ++ [c] |}.
Proof.
  intros Hc Hs. eapply extends_trans; [exact Hs|].
  split; [done|]. exists [c]. split; [done|].
  rewrite list_elem_of_singleton. congruence.
Qed.

Lemma full_response_intro text data type :
  type ∈ response_types -> full_response (response text data type).
Proof. intros Hty. by exists text, data, type. Qed.

End LogicRules.

Create HintDb dialog.

#[local] Hint Resolve extends_refl : dialog.
#[local] Hint Resolve full_response_intro : dialog.

(** ** What the handlers guarantee *)

Ltac solve_type :=
  unfold response_types; rewrite !elem_of_cons; tauto.

Section HandlerSpecs.

Context {W : Type} `{NewsStore W, Analyzer W, Clock W}.
Implicit Types s : St W.

Lemma handler_post_ret s0 s text data type :
  extends s0 s -> type ∈ response_types ->
  handler_post s0 (Ok (response text data type)) s.
Proof.
  intros Hs Hty. split; [done|]. intros resp [= <-].
  by apply full_response_intro.
Qed.

Lemma handler_post_raise s0 s e :
  extends s0 s -> handler_post s0 (Raise e) s.
Proof. intros Hs. split; [done|]. intros resp [=]. Qed.

Lemma latest_news_response_full latest_news :
  full_response (latest_news_response latest_news).
Proof. destruct latest_news; apply full_response_intro; solve_type. Qed.

Lemma search_response_full query search_results :
  full_response (search_response query search_results).
Proof. destruct search_results; apply full_response_intro; solve_type. Qed.

Lemma handler_post_full s0 s resp :
  extends s0 s -> full_response resp -> handler_post s0 (Ok resp) s.
Proof. intros Hs Hr. split; [done|]. by intros ? [= <-]. Qed.

(** The latest-news handler always returns, whatever the store does. *)
Lemma handle_latest_news_returns limit s0 s :
  extends s0 s ->
  wp (_handle_latest_news limit)
     (fun r s' => handler_post s0 r s' /\ exists resp, r = Ok resp) s.
Proof.
  intros Hs. unfold _handle_latest_news. apply wp_try_except.
  apply (wp_mono _ (fun r s' => extends s0 s' /\
           forall resp, r = Ok resp -> full_response resp)).
  { intros [resp|e] s' [Hext Hfull].
    - split; [by split|by eexists].
    - apply wp_ret. split; [|by eexists].
      apply handler_post_ret; [done|solve_type]. }
  assert (Hfetch : forall l s1, extends s0 s1 ->
    wp (latest_news ← call (CallGetLatestNews l) (get_latest_news l);
        mret (latest_news_response latest_news))
       (fun r s' => extends s0 s' /\
          forall resp, r = Ok resp -> full_response resp) s1).
  { intros l s1 Hs1. apply wp_bind, wp_call. intros [items|e] w.
    - apply wp_ret. split; [by apply extends_call|].
      intros ? [= <-]. apply latest_news_response_full.
    - split; [by apply extends_call|]. by intros ? [=]. }
  apply wp_bind. unfold guard_limit.
  destruct limit as [|n|str]; [by apply wp_ret, Hfetch..|].
  destruct (PyStr.isdigit str).
  - destruct (PyStr.int str); [by apply wp_ret, Hfetch|].
    apply wp_raise. split; [done|]. by intros ? [=].
  - case_bool_decide; by apply wp_ret, Hfetch.
Qed.

Lemma handle_search_news_post query limit s0 s :
  extends s0 s -> wp (_handle_search_news query limit) (handler_post s0) s.
Proof.
  intros Hs. unfold _handle_search_news. apply wp_bind, wp_call.
  intros [results|e] w.
  - apply wp_ret, handler_post_full, search_response_full.
    by apply extends_call.
  - apply handler_post_raise. by apply extends_call.
Qed.

Lemma analyze_each_extends items s0 s :
  extends s0 s ->
  wp (analyze_each items) (fun _ s' => extends s0 s') s.
Proof.
  revert s. induction items as [|news rest IH]; intros s Hs; simpl.
  - by apply wp_ret.
  - apply wp_bind, wp_call. intros [analysis|e] w.
    + apply wp_bind. eapply wp_mono; [|apply IH; by apply extends_call].
      intros [results|e] s' Hs'; [by apply wp_ret|done].
    + by apply extends_call.
Qed.

Lemma handle_analyze_news_post limit s0 s :
  extends s0 s -> wp (_handle_analyze_news limit) (handler_post s0) s.
Proof.
  intros Hs. unfold _handle_analyze_news. apply wp_bind, wp_call.
  intros [[|news rest]|e] w.
  - apply wp_ret, handler_post_ret; [by apply extends_call|solve_type].
  - apply wp_bind.
    eapply wp_mono; [|apply analyze_each_extends; by apply extends_call].
    intros [results|e] s' Hs'.
    + apply wp_ret, handler_post_ret; [done|solve_type].
    + by apply handler_post_raise.
  - apply handler_post_raise. by apply extends_call.
Qed.

Lemma handle_get_summary_post limit s0 s :
  extends s0 s -> wp (_handle_get_summary limit) (handler_post s0) s.
Proof.
  intros Hs. unfold _handle_get_summary. apply wp_bind, wp_call.
  intros [[|news rest]|e] w.
  - apply wp_ret, handler_post_ret; [by apply extends_call|solve_type].
  - apply wp_bind, wp_call. intros [summary|e] w'.
    + apply wp_ret, handler_post_ret; [|solve_type].
      apply (extends_call s0 (Build_St W _ _ _)); [done|].
      by apply extends_call.
    + apply handler_post_raise.
      apply (extends_call s0 (Build_St W _ _ _)); [done|].
      by apply extends_call.
  - apply handler_post_raise. by apply extends_call.
Qed.

(** The branch for [get_latest_news] always returns as well: both of its
    blocks end in the latest-news handler. *)
Lemma latest_branch_returns message s0 s :
  extends s0 s ->
  wp (latest_branch message)
     (fun r s' => handler_post s0 r s' /\ exists resp, r = Ok resp) s.
Proof.
  intros Hs. unfold latest_branch. apply wp_bind.
  apply (wp_mono _ (fun r s' => extends s0 s' /\ exists resp, r = Ok resp)).
  { intros r s' [Hs' [resp ->]].
    simpl. repeat case_match; try by apply handle_latest_news_returns.
    apply wp_try_except_of, wp_bind. unfold int_of_last_word.
    repeat case_match.
    - apply wp_ret.
      eapply wp_mono; [|by apply handle_latest_news_returns].
      intros r s1 [Hpost [resp1 ->]]. split; [done|by eexists].
    - apply wp_raise. by apply handle_latest_news_returns.
    - apply wp_raise. by apply handle_latest_news_returns. }
  apply wp_try_except.
  assert (Hhandle : forall limit,
    wp (_handle_latest_news limit)
       (fun r s' =>
          match r with
          | Ok a => extends s0 s' /\ exists resp, Ok a = Ok resp
          | Raise e =>
              wp (mret (response txt_request_failed VNone ty_error) : M W _)
                 (fun r s' => extends s0 s' /\ exists resp, r = Ok resp) s'
          end) s).
  { intros limit.
    eapply wp_mono; [|by apply handle_latest_news_returns].
    intros r s' [[Hs' _] [resp ->]]. split; [done|by eexists]. }
  repeat case_match; try apply Hhandle.
  apply wp_raise, wp_ret. split; [done|by eexists].
Qed.

Lemma intent_branch_post message s :
  wp (intent_branch message) (handler_post s) s.
Proof.
  unfold intent_branch. apply wp_bind, wp_get_self.
  pose proof (extends_refl s) as Hs.
  destruct (_determine_intent (self s) message).
  1, 7: apply wp_ret, handler_post_ret; [done|solve_type].
  - apply wp_ret, handler_post_ret; [done|solve_type].
  - apply wp_ret, handler_post_ret; [done|solve_type].
  - by apply handle_search_news_post.
  - by apply handle_analyze_news_post.
  - by apply handle_get_summary_post.
  - eapply wp_mono; [|by apply latest_branch_returns]. by intros r s' [? _].
Qed.

Lemma update_branch_post s :
  wp update_branch
     (fun r s' =>
        self s' = self s /\ calls s' = calls s ++ [CallUpdateNews] /\
        exists text, r = Ok (text_only text)) s.
Proof.
  unfold update_branch. apply wp_try_except, wp_bind, wp_call.
  intros [items|e] w; apply wp_ret; simpl; eauto.
Qed.

Lemma add_to_context_post message role s :
  wp (add_to_context message role)
     (fun r s' =>
        r = Ok tt /\ calls s' = calls s /\
        exists t,
          self s' =
            append_entry
              {| role := role; content := message; timestamp := t |}
              (self s)) s.
Proof.
  unfold add_to_context. apply wp_bind, wp_now. intros t w.
  apply wp_bind, wp_get_self, wp_set_self. simpl. eauto.
Qed.

End HandlerSpecs.

(** ** The bounded context *)

Lemma append_entry_context e dm :
  (1 <= context_size dm)%Z ->
  context (append_entry e dm) =
    drop (length (context dm) + 1 - Z.to_nat (context_size dm))
      (context dm ++ [e]).
Proof.
  intros Hsize. unfold append_entry, slice_from. simpl.
  rewrite length_app. simpl.
  destruct (Z.ltb_spec (context_size dm) (Z.of_nat (length (context dm) + 1))).
  - destruct (Z.ltb_spec (- context_size dm) 0); [|lia]. f_equal. lia.
  - replace (length (context dm) + 1 - Z.to_nat (context_size dm)) with 0
      by lia.
    done.
Qed.

Lemma append_entry_twice e1 e2 dm :
  (2 <= context_size dm)%Z ->
  exists older,
    context (append_entry e2 (append_entry e1 dm)) = older ++ [e1; e2] /\
    older `suffix_of` context dm.
Proof.
  intros Hsize.
  rewrite (append_entry_context e2) by (simpl; lia).
  rewrite (append_entry_context e1) by lia. simpl.
  set (k := Z.to_nat (context_size dm)).
  set (ctx := context dm).
  assert (Hk : 2 <= k) by lia.
  set (n1 := length ctx + 1 - k).
  rewrite (drop_app_le ctx [e1] n1) by lia.
  rewrite length_app, length_drop. simpl.
  rewrite <- app_assoc. simpl.
  rewrite drop_app_le by (rewrite length_drop; lia).
  eexists. split; [done|]. rewrite drop_drop. apply suffix_drop.
Qed.

Lemma append_all_snoc es e dm :
  append_all (es ++ [e]) dm = append_entry e (append_all es dm).
Proof. unfold append_all. by rewrite foldl_app. Qed.

Lemma context_size_append_all es dm :
  context_size (append_all es dm) = context_size dm.
Proof.
  induction es as [|e es IH] using rev_ind; [done|].
  by rewrite append_all_snoc.
Qed.

Lemma append_all_context es dm :
  (1 <= context_size dm)%Z ->
  length (context dm) <= Z.to_nat (context_size dm) ->
  context (append_all es dm) =
    drop (length (context dm ++ es) - Z.to_nat (context_size dm))
      (context dm ++ es).
Proof.
  intros Hsize Hlen. induction es as [|e es IH] using rev_ind.
  - simpl. rewrite app_nil_r.
    by replace (length (context dm) - Z.to_nat (context_size dm)) with 0
      by lia.
  - rewrite append_all_snoc, append_entry_context
      by (by rewrite context_size_append_all).
    rewrite context_size_append_all, IH.
    set (k := Z.to_nat (context_size dm)).
    rewrite length_drop, !length_app. simpl.
    set (n := length (context dm) + length es).
    rewrite app_assoc.
    rewrite <- (drop_app_le (context dm ++ es) [e] (n - k))
      by (rewrite length_app; lia).
    rewrite drop_drop. f_equal. lia.
Qed.

(** The part of C4 that the code keeps.  For every context size of at least
    1 and every sequence of appended entries, starting from the empty
    context of a new manager, the context is never longer than the context
    size and it holds exactly the most recent entries, at most context-size
    of them, in the order they were appended. *)
Theorem context_keeps_most_recent (size : Z) (es : list ContextEntry) :
  (1 <= size)%Z ->
  let dm := append_all es {| context_size := size; context := [] |} in
  (Z.of_nat (length (context dm)) <= size)%Z /\
  context dm = drop (length es - Z.to_nat size) es.
Proof.
  intros Hsize dm.
  assert (Hctx : context dm = drop (length es - Z.to_nat size) es).
  { unfold dm. rewrite append_all_context by (simpl; lia). done. }
  split; [|done]. rewrite Hctx, length_drop. lia.
Qed.

Lemma context_keeps_most_recent_witness :
  (1 <= 2)%Z /\
  let es := [Sample.entry "user" "a"; Sample.entry "system" "b";
             Sample.entry "user" "c"] in
  let dm := append_all es {| context_size := 2; context := [] |} in
  (Z.of_nat (length (context dm)) <= 2)%Z /\
  context dm = drop (length es - Z.to_nat 2) es.
Proof.
  split; [lia|]. apply (context_keeps_most_recent 2). lia.
Defined.

(** With a context size of 0 the truncation of [add_to_context] keeps
    everything: [context[-0:]] is the whole list. *)
Lemma context_size_zero_keeps_all (es : list ContextEntry) :
  context (append_all es {| context_size := 0; context := [] |}) = es.
Proof.
  induction es as [|e es IH] using rev_ind; [done|].
  rewrite append_all_snoc. unfold append_entry.
  rewrite context_size_append_all, IH. simpl.
  rewrite length_app. simpl.
  destruct (Z.ltb_spec 0 (Z.of_nat (length es + 1))); [|lia].
  reflexivity.
Qed.

(** C4.  The bound is broken for a context size of 0.  [add_to_context]
    means to cut the context down to its size (the comment reads: limit
    the size of the context), but the slice [context[-0:]] it takes is the
    whole list, so the first entry already exceeds the size and nothing is
    ever dropped. *)
Lemma context_size_zero_unbounded :
  let dm := append_all [Sample.entry "user" "a"]
              {| context_size := 0; context := [] |} in
  ~ (Z.of_nat (length (context dm)) <= context_size dm)%Z.
Proof. simpl. lia. Qed.

(** ** [process_message] *)

Lemma response_text text data type :
  response text data type !! "text" = Some (VStr text).
Proof. reflexivity. Qed.

Lemma response_data text data type :
  response text data type !! "data" = Some data.
Proof. reflexivity. Qed.

Lemma response_type text data type :
  response text data type !! "type" = Some (VStr type).
Proof. reflexivity. Qed.

Lemma text_only_text text : text_only text !! "text" = Some (VStr text).
Proof. reflexivity. Qed.

Lemma text_only_other text key : key <> "text" -> text_only text !! key = None.
Proof. intros Hkey. unfold text_only. by rewrite lookup_singleton_ne. Qed.

Section ProcessMessage.

Context {W : Type} `{NewsStore W, Analyzer W, Clock W}.
Implicit Types s : St W.

(** Everything the later theorems need about one call: what the branch
    taken recorded and returned, and the two entries put in the context
    when the call returns. *)
Lemma process_message_post message s :
  wp (process_message message)
     (fun r s' =>
        (if is_update_command message
         then calls s' = calls s ++ [CallUpdateNews]
         else exists new, calls s' = calls s ++ new /\ CallUpdateNews ∉ new)
        /\
        forall resp, r = Ok resp ->
          exists text t_user t_system,
            resp !! "text" = Some (VStr text) /\
            (if is_update_command message then resp = text_only text
             else full_response resp) /\
            self s' =
              append_entry
                {| role := role_system; content := text;
                   timestamp := t_system |}
                (append_entry
                   {| role := role_user; content := message;
                      timestamp := t_user |}
                   (self s))) s.
Proof.
  unfold process_message. apply wp_bind.
  eapply wp_mono; [|apply add_to_context_post].
  intros r1 s1 (-> & Hc1 & t_user & Hself1). apply wp_bind.
  destruct (is_update_command message).
  - eapply wp_mono; [|apply update_branch_post].
    intros r2 s2 (Hself2 & Hc2 & text & ->).
    apply wp_bind. unfold get_text. rewrite text_only_text.
    apply wp_ret, wp_bind.
    eapply wp_mono; [|apply add_to_context_post].
    intros r3 s3 (-> & Hc3 & t_system & Hself3). apply wp_ret.
    split; [congruence|]. intros resp [= <-].
    exists text, t_user, t_system. rewrite text_only_text.
    split; [done|]. split; [done|]. congruence.
  - eapply wp_mono; [|apply intent_branch_post].
    intros [resp|e] s2 [[Hself2 (new & Hc2 & Hnew)] Hfull].
    + destruct (Hfull resp eq_refl) as (text & data & type & -> & Htype).
      apply wp_bind. unfold get_text. rewrite response_text.
      apply wp_ret, wp_bind.
      eapply wp_mono; [|apply add_to_context_post].
      intros r3 s3 (-> & Hc3 & t_system & Hself3). apply wp_ret.
      split; [exists new; split; [congruence|done]|].
      intros resp [= <-]. exists text, t_user, t_system.
      rewrite response_text. split; [done|].
      split; [by apply full_response_intro|]. congruence.
    + split; [exists new; split; [congruence|done]|]. by intros resp [=].
Qed.

(** C9.  When [process_message] returns a response and the context size
    is at least 2, the context ends with two new entries: the user's
    message, then the text of the response with role [system]; what is in
    front of them is the end of the previous context.  This holds on every
    path, the update path included. *)
Theorem process_message_records_exchange message s r s' :
  (2 <= context_size (self s))%Z ->
  process_message message s = (Ok r, s') ->
  exists older text t_user t_system,
    r !! "text" = Some (VStr text) /\
    context (self s') =
      older ++
        [ {| role := role_user; content := message; timestamp := t_user |};
          {| role := role_system; content := text;
             timestamp := t_system |} ] /\
    older `suffix_of` context (self s).
Proof.
  intros Hsize Hrun.
  destruct (wp_run _ _ _ _ _ (process_message_post message s) Hrun)
    as [_ Hret].
  destruct (Hret r eq_refl) as (text & t_user & t_system & Htext & _ & Hself).
  destruct (append_entry_twice
              {| role := role_user; content := message;
                 timestamp := t_user |}
              {| role := role_system; content := text;
                 timestamp := t_system |} (self s) Hsize)
    as (older & Hctx & Hsuffix).
  exists older, text, t_user, t_system. by rewrite Hself.
Qed.

(** The part of C5 that the code keeps.  A response returned by
    [process_message] always has a [text] field holding a string.  When the
    lower-cased message is not an update command, the response has the
    three fields [text], [data] and [type], and [type] is one of the eight
    response types; for an update command the response has the [text]
    field only. *)
Theorem process_message_response_shape message s r s' :
  process_message message s = (Ok r, s') ->
  (exists text, r !! "text" = Some (VStr text)) /\
  if is_update_command message
  then r !! "data" = None /\ r !! "type" = None
  else exists type,
      is_Some (r !! "data") /\ r !! "type" = Some (VStr type) /\
      type ∈ response_types.
Proof.
  intros Hrun.
  destruct (wp_run _ _ _ _ _ (process_message_post message s) Hrun)
    as [_ Hret].
  destruct (Hret r eq_refl)
    as (text & t_user & t_system & Htext & Hshape & _).
  split; [by exists text|].
  destruct (is_update_command message).
  - subst r. by rewrite !text_only_other.
  - destruct Hshape as (text' & data & type & -> & Htype).
    exists type. by rewrite response_data, response_type.
Qed.

(** C6, as amended.  [process_message] calls the refresh of the news
    store exactly when the lower-cased message, not trimmed, is one of
    the three update commands; it then makes no other collaborator call,
    the classifier is not consulted. *)
Theorem update_command_routing message dm (w : W) :
  let s' := (run (process_message message) dm w).2 in
  (CallUpdateNews ∈ calls s' <-> PyStr.lower message ∈ update_commands) /\
  (PyStr.lower message ∈ update_commands -> calls s' = [CallUpdateNews]).
Proof.
  unfold run.
  destruct (process_message_post message
              {| self := dm; world := w; calls := [] |}) as [Hcalls _].
  unfold is_update_command in Hcalls. simpl in Hcalls.
  case_bool_decide as Hcmd.
  - rewrite Hcalls. split; [|done].
    split; [done|]. intros _. apply list_elem_of_singleton. done.
  - destruct Hcalls as (new & -> & Hnew). simpl. split; [|done].
    split; [done|]. by intros ?.
Qed.

End ProcessMessage.

(** ** Concrete runs *)

Lemma process_message_records_exchange_witness :
  (2 <= 5)%Z /\
  exists older text t_user t_system,
    response txt_greeting VNone ty_greeting !! "text" = Some (VStr text) /\
    context (self (process_message (py "привет") (init 5 Sample.calm)).2) =
      older ++
        [ {| role := role_user; content := py "привет";
             timestamp := t_user |};
          {| role := role_system; content := text;
             timestamp := t_system |} ] /\
    older `suffix_of` [].
Proof.
  split; [lia|].
  apply (process_message_records_exchange
           (py "привет") (init 5 Sample.calm)
           (response txt_greeting VNone ty_greeting)
           (process_message (py "привет") (init 5 Sample.calm)).2).
  - simpl. lia.
  - vm_compute. reflexivity.
Defined.

Lemma process_message_response_shape_witness :
  (exists text,
      response txt_greeting VNone ty_greeting !! "text" = Some (VStr text)) /\
  exists type,
    is_Some (response txt_greeting VNone ty_greeting !! "data") /\
    response txt_greeting VNone ty_greeting !! "type" = Some (VStr type) /\
    type ∈ response_types.
Proof.
  apply (process_message_response_shape
           (py "привет") (init 5 Sample.calm)
           (response txt_greeting VNone ty_greeting)
           (process_message (py "привет") (init 5 Sample.calm)).2).
  vm_compute. reflexivity.
Defined.

(** C5.  The response shape is broken on the update path.  Every handler,
    and the [except] clause of the news branch, builds the three fields
    [text], [data] and [type]; the update branch of [process_message]
    builds [text] alone, so the response of an update command has no [type]
    and no [data] field. *)
Lemma update_response_has_text_only :
  exists r,
    (process_message (py "update") (init 5 Sample.calm)).1 = Ok r /\
    r !! "type" = None /\ r !! "data" = None.
Proof. exists (text_only txt_updated). by vm_compute. Qed.

Lemma update_command_routing_witness :
  PyStr.lower (py "Обновить Новости") ∈ update_commands /\
  calls (run (process_message (py "Обновить Новости"))
           {| context_size := 5; context := [] |} Sample.calm).2
  = [CallUpdateNews].
Proof.
  assert (Hcmd : PyStr.lower (py "Обновить Новости") ∈ update_commands)
    by compute_done.
  split; [exact Hcmd|].
  apply (update_command_routing (py "Обновить Новости")
           {| context_size := 5; context := [] |} Sample.calm).
  exact Hcmd.
Defined.

(** The second example of C6: a longer sentence that ends in an update
    command is classified instead, here as a request for the latest news. *)
Lemma polite_update_request_is_classified :
  (PyStr.lower (py "пожалуйста обновить новости") ∉ update_commands) /\
  calls (run (process_message (py "пожалуйста обновить новости"))
           {| context_size := 5; context := [] |} Sample.calm).2
  = [CallGetLatestNews (LInt 5); CallGetLatestNews (LInt 5)].
Proof. split; [compute_done|]. by vm_compute. Qed.

(** C6 as stated fails on a message with white space around the command:
    trimmed and lower-cased it is an update command, yet the refresh is not
    called, the message is classified. *)
Lemma padded_update_command_not_routed :
  PyStr.strip (PyStr.lower (py " update")) ∈ update_commands /\
  CallUpdateNews ∉
    calls (run (process_message (py " update"))
             {| context_size := 5; context := [] |} Sample.calm).2.
Proof. split; compute_done. Qed.

(** C1 on a store and an analyzer that raise: in the search, analyze and
    summary handlers the exception leaves [process_message]. *)
Theorem collaborator_failure_escapes :
  (process_message (py "найди инфляция") (init 5 Sample.broken)).1
  = Raise Sample.failure /\
  (process_message (py "анализ новостей") (init 5 Sample.broken)).1
  = Raise Sample.failure /\
  (process_message (py "сводка") (init 5 Sample.broken)).1
  = Raise Sample.failure.
Proof. by vm_compute. Qed.

(** C2 on the messages the help text advertises: the classifier answers
    [get_all_news] and [get_n_news], which [process_message] does not
    dispatch, so the unknown handler answers. *)
Theorem all_news_request_gets_unknown :
  (process_message (py "все новости") (init 5 Sample.calm)).1
  = Ok (response txt_unknown VNone ty_unknown) /\
  (process_message (py "новости 10") (init 5 Sample.calm)).1
  = Ok (response txt_unknown VNone ty_unknown).
Proof. by vm_compute. Qed.

(** ** The news store: sort and limit *)

Lemma insert_desc_perm x l : NewsParser.insert_desc x l ≡ₚ x :: l.
Proof.
  induction l as [|y l IH]; simpl; [done|].
  destruct (PyStr.ltb _ _); [|done].
  rewrite IH. apply Permutation_swap.
Qed.

Lemma sorted_desc_perm l : NewsParser.sorted_desc l ≡ₚ l.
Proof.
  induction l as [|x l IH]; simpl; [done|].
  by rewrite insert_desc_perm, IH.
Qed.

(** Without a limit every item of the cache is returned. *)
Lemma get_latest_news_none_all cache :
  NewsParser.get_latest_news cache LNone ≡ₚ NewsParser.values cache.
Proof. apply sorted_desc_perm. Qed.

(** A limit of 0 is not told apart from no limit. *)
Lemma get_latest_news_zero cache :
  NewsParser.get_latest_news cache (LInt 0) =
  NewsParser.get_latest_news cache LNone.
Proof. reflexivity. Qed.

(** C3 on a cache of three items: with [limit=0] the store returns all
    three, latest first, and the latest-news handler lists them instead of
    answering that there is no news. *)
Theorem zero_limit_returns_all_news :
  let all_news := [Sample.item "n2" "2024-05-03";
                   Sample.item "n3" "2024-05-02";
                   Sample.item "n1" "2024-05-01"] in
  NewsParser.get_latest_news Sample.cache (LInt 0) = all_news /\
  (_handle_latest_news (LInt 0) (init 5 Sample.parser)).1
  = Ok (latest_news_response all_news) /\
  latest_news_response all_news !! "data" = Some (VNews all_news).
Proof. by vm_compute. Qed.

(** ** Facts about the string operations *)

Section StringFacts.

Implicit Types s p a b : pystr.

Lemma startswith_spec s p :
  PyStr.startswith s p = true <-> exists b, s = p ++ b.
Proof.
  revert s. induction p as [|x p IH]; intros s; simpl.
  - split; [intros _; by exists s|done].
  - destruct s as [|y s].
    + split; [done|]. by intros [b Hb].
    + rewrite andb_true_iff, N.eqb_eq, IH. split.
      * intros [-> [b ->]]. by exists b.
      * intros [b [= -> ->]]. split; [done|by exists b].
Qed.

Lemma contains_spec s p :
  PyStr.contains s p = true <-> exists a b, s = a ++ p ++ b.
Proof.
  induction s as [|c s IH]; simpl; rewrite orb_true_iff, startswith_spec.
  - split.
    + intros [[b ->]|]; [by exists [], b|done].
    + intros (a & b & Hs). left. destruct a; [by exists b|done].
  - rewrite IH. split.
    + intros [[b ->]|(a & b & ->)]; [by exists [], b|by exists (c :: a), b].
    + intros ([|c' a] & b & Hs); simpl in Hs.
      * left. by exists b.
      * right. injection Hs as -> ->. by exists a, b.
Qed.

Lemma contains_middle a p b : PyStr.contains (a ++ p ++ b) p = true.
Proof. apply contains_spec. by exists a, b. Qed.

Lemma contains_app_l s p b :
  PyStr.contains s p = true -> PyStr.contains (s ++ b) p = true.
Proof.
  rewrite !contains_spec. intros (a & b' & ->). exists a, (b' ++ b).
  by rewrite <- !app_assoc.
Qed.

Lemma contains_app_r s p a :
  PyStr.contains s p = true -> PyStr.contains (a ++ s) p = true.
Proof.
  rewrite !contains_spec. intros (a' & b & ->). exists (a ++ a'), b.
  by rewrite <- !app_assoc.
Qed.

Lemma contains_length s p :
  PyStr.contains s p = true -> length p <= length s.
Proof.
  rewrite contains_spec. intros (a & b & ->). rewrite !length_app. lia.
Qed.

(** Lower-casing keeps the occurrences of a text that is lower case
    already. *)
Lemma contains_lower s p :
  PyStr.lower p = p ->
  PyStr.contains s p = true -> PyStr.contains (PyStr.lower s) p = true.
Proof.
  intros Hp. rewrite !contains_spec. intros (a & b & ->).
  exists (PyStr.lower a), (PyStr.lower b).
  unfold PyStr.lower in *. by rewrite !map_app, Hp.
Qed.

Lemma lstrip_keeps a c p b :
  PyStr.isspace c = false ->
  exists a', PyStr.lstrip (a ++ c :: p ++ b) = a' ++ c :: p ++ b.
Proof.
  intros Hc. induction a as [|x a IH]; simpl.
  - rewrite Hc. by exists [].
  - destruct (PyStr.isspace x); [done|]. by exists (x :: a).
Qed.

Lemma rstrip_keeps a p c b :
  PyStr.isspace c = false ->
  exists b', PyStr.rstrip (a ++ (p ++ [c]) ++ b) = a ++ (p ++ [c]) ++ b'.
Proof.
  intros Hc. unfold PyStr.rstrip.
  rewrite !reverse_app. simpl. rewrite <- !app_assoc. simpl.
  destruct (lstrip_keeps (reverse b) c (reverse p) (reverse a) Hc)
    as [b' ->].
  exists (reverse b').
  rewrite reverse_app, reverse_cons, reverse_app, !reverse_involutive.
  by rewrite <- !app_assoc.
Qed.

(** Trimming keeps the occurrences of a text that neither starts nor ends
    with white space. *)
Lemma contains_strip s c p c' :
  PyStr.isspace c = false -> PyStr.isspace c' = false ->
  PyStr.contains s (c :: p ++ [c']) = true ->
  PyStr.contains (PyStr.strip s) (c :: p ++ [c']) = true.
Proof.
  intros Hc Hc'. rewrite !contains_spec. intros (a & b & ->).
  unfold PyStr.strip. simpl.
  destruct (lstrip_keeps a c (p ++ [c']) b Hc) as [a' ->].
  destruct (rstrip_keeps a' (c :: p) c' b Hc') as [b' Hb].
  simpl in Hb. rewrite Hb. by exists a', b'.
Qed.

Lemma find_first_Some sep s a b :
  sep <> [] ->
  PyStr.find_first sep s = Some (a, b) ->
  s = a ++ sep ++ b /\
  PyStr.contains (a ++ removelast sep) sep = false.
Proof.
  intros Hsep. revert a b. induction s as [|c s IH]; intros a b.
  - simpl. destruct (PyStr.startswith [] sep) eqn:Hstart; [|done].
    apply startswith_spec in Hstart as [b' Hb']. by destruct sep.
  - simpl. destruct (PyStr.startswith (c :: s) sep) eqn:Hstart.
    + intros [= <- <-]. apply startswith_spec in Hstart as [b' Hb'].
      split.
      * simpl. rewrite Hb' at 1. f_equal.
        by rewrite Hb', drop_app_length.
      * simpl. apply not_true_is_false. intros Hin%contains_length.
        assert (Hlen : length (removelast sep) < length sep).
        { rewrite (app_removelast_last 0%N Hsep) at 2.
          rewrite length_app. simpl. lia. }
        lia.
    + destruct (PyStr.find_first sep s) as [[a' b']|] eqn:Hfind; [|done].
      intros [= <- <-]. destruct (IH a' b' eq_refl) as [-> Hfirst].
      split; [done|]. simpl. rewrite Hfirst, orb_false_r.
      apply not_true_is_false. intros [b'' Hb'']%startswith_spec.
      assert (PyStr.startswith (c :: a' ++ sep ++ b') sep = true) as Hyes;
        [|congruence].
      apply startswith_spec.
      exists (b'' ++ [List.last sep 0%N] ++ b').
      rewrite (app_removelast_last 0%N Hsep) at 1.
      transitivity
        ((c :: a' ++ removelast sep) ++ [List.last sep 0%N] ++ b').
      { simpl. by rewrite <- !app_assoc. }
      rewrite Hb''. by rewrite <- !app_assoc.
Qed.

Lemma contains_find_first sep s :
  PyStr.contains s sep = true ->
  exists a b, PyStr.find_first sep s = Some (a, b).
Proof.
  induction s as [|c s IH]; simpl.
  - rewrite orb_false_r. intros ->. eauto.
  - destruct (PyStr.startswith (c :: s) sep); [eauto|]. simpl.
    intros (a & b & ->)%IH. eauto.
Qed.

End StringFacts.

(** ** The classifier and the query extractor *)

Lemma any_in_pair text a b :
  any_in text [a; b] = PyStr.contains text a || PyStr.contains text b.
Proof. unfold any_in. simpl. by rewrite orb_false_r. Qed.

Lemma determine_intent_by_rules dm message :
  _determine_intent dm message = classify_by_rules message.
Proof.
  unfold _determine_intent, classify_by_rules, intent_rules, news_words.
  set (text := PyStr.strip (PyStr.lower message)).
  rewrite any_in_pair. cbn [first_match].
  destruct (PyStr.contains text kw_all_news); [done|].
  destruct (any_in text help_words); [done|].
  destruct (any_in text greeting_words); [done|].
  destruct (any_in text search_words); [done|].
  destruct (any_in text analyze_words); [done|].
  destruct (any_in text summary_words); [done|].
  destruct (PyStr.contains text kw_news), (PyStr.contains text kw_latest);
    simpl; repeat case_match; done.
Qed.

Lemma all_news_phrase_first dm message :
  PyStr.contains (PyStr.lower message) kw_all_news = true ->
  _determine_intent dm message = Intent.get_all_news.
Proof.
  intros Hphrase. unfold _determine_intent.
  assert (PyStr.contains (PyStr.strip (PyStr.lower message)) kw_all_news
          = true) as ->; [|done].
  revert Hphrase.
  change kw_all_news with (1074 :: removelast (tail kw_all_news) ++ [1080])%N.
  by apply contains_strip.
Qed.

(** C7.  The classifier is the ordered rule table with the first match
    deciding, applied to the lower-cased, trimmed message; so a message
    that contains the phrase for all news, in any letter case, is classified
    [get_all_news] whatever other keywords it contains. *)
Theorem determine_intent_priority dm message :
  _determine_intent dm message = classify_by_rules message /\
  (PyStr.contains (PyStr.lower message) kw_all_news = true ->
   _determine_intent dm message = Intent.get_all_news) /\
  (PyStr.contains message kw_all_news = true ->
   _determine_intent dm message = Intent.get_all_news).
Proof.
  split; [apply determine_intent_by_rules|].
  split; [apply all_news_phrase_first|].
  intros Hphrase. apply all_news_phrase_first.
  by apply contains_lower.
Qed.

Lemma determine_intent_priority_witness :
  PyStr.contains (py "все новости и последние") kw_all_news = true /\
  PyStr.contains (py "все новости и последние") kw_latest = true /\
  _determine_intent {| context_size := 5; context := [] |}
    (py "все новости и последние") = Intent.get_all_news.
Proof.
  assert (Hphrase :
    PyStr.contains (py "все новости и последние") kw_all_news = true)
    by (vm_compute; reflexivity).
  split; [exact Hphrase|]. split; [vm_compute; reflexivity|].
  apply (determine_intent_priority
           {| context_size := 5; context := [] |}
           (py "все новости и последние")).
  exact Hphrase.
Defined.

Lemma extract_loop_first text prefixes :
  Forall (fun p => p <> []) prefixes ->
  match List.find (PyStr.contains text) prefixes with
  | Some trigger =>
      exists before after,
        text = before ++ trigger ++ after /\
        PyStr.contains (before ++ removelast trigger) trigger = false /\
        extract_loop text prefixes = Some (PyStr.strip after)
  | None => extract_loop text prefixes = None
  end.
Proof.
  induction 1 as [|p prefixes Hp _ IH]; simpl; [done|].
  destruct (PyStr.contains text p) eqn:Hin; [|exact IH].
  destruct (contains_find_first _ _ Hin) as (before & after & Hfind).
  unfold PyStr.split1. rewrite Hfind.
  destruct (find_first_Some _ _ _ _ Hp Hfind) as [Htext Hfirst].
  by exists before, after.
Qed.

(** C8.  The extractor lower-cases the message and takes the first of the
    four triggers, in their order, that occurs in it; it returns what
    follows the first occurrence of that trigger, trimmed, and the whole
    lower-cased message when no trigger occurs.  [before] is the text in
    front of the first occurrence: the trigger does not occur any
    earlier. *)
Theorem extract_search_query_spec :
  (forall message,
     let text := PyStr.lower message in
     match List.find (PyStr.contains text) search_prefixes with
     | Some trigger =>
         exists before after,
           text = before ++ trigger ++ after /\
           PyStr.contains (before ++ removelast trigger) trigger = false /\
           _extract_search_query message = PyStr.strip after
     | None => _extract_search_query message = text
     end) /\
  _extract_search_query (py "найди инфляция") = py "инфляция".
Proof.
  split; [|vm_compute; reflexivity].
  intros message text. unfold _extract_search_query. fold text.
  assert (Hne : Forall (fun p : pystr => p <> []) search_prefixes)
    by (repeat constructor; done).
  pose proof (extract_loop_first text search_prefixes Hne) as Hloop.
  destruct (List.find (PyStr.contains text) search_prefixes).
  - destruct Hloop as (before & after & Htext & Hfirst & ->).
    by exists before, after.
  - by rewrite Hloop.
Qed.

(** ** Localization of the sentiment *)



Section Rendering.

Context {W : Type} `{NewsStore W, Analyzer W}.
Implicit Types s : St W.



End Rendering.

Section SentimentInHandlers.

Context {W : Type} `{NewsStore W, Analyzer W}.
Implicit Types s : St W.


End SentimentInHandlers.


(** * Further properties *)

(** ** More facts about the string operations *)

Ltac n_cases :=
  repeat (match goal with
          | |- context [N.leb ?a ?b] => destruct (N.leb_spec a b)
          | |- context [N.eqb ?a ?b] => destruct (N.eqb_spec a b)
          end; simpl; try lia).

Lemma lower_cp_fixed c : ~ is_upper_cp c -> PyStr.lower_cp c = c.
Proof. unfold is_upper_cp, PyStr.lower_cp. intros Hc. n_cases. Qed.

Lemma lower_cp_not_upper c : ~ is_upper_cp (PyStr.lower_cp c).
Proof. unfold is_upper_cp, PyStr.lower_cp. n_cases. Qed.

Lemma lower_cp_idemp c : PyStr.lower_cp (PyStr.lower_cp c) = PyStr.lower_cp c.
Proof. apply lower_cp_fixed, lower_cp_not_upper. Qed.

Lemma lower_idemp s : PyStr.lower (PyStr.lower s) = PyStr.lower s.
Proof.
  unfold PyStr.lower. rewrite map_map. apply map_ext. intros c. apply lower_cp_idemp.
Qed.

Lemma isspace_lower_cp c : PyStr.isspace (PyStr.lower_cp c) = PyStr.isspace c.
Proof.
  destruct (decide (is_upper_cp c)) as [Hc|Hc].
  - assert (PyStr.isspace c = false) as ->
      by (unfold is_upper_cp in Hc; unfold PyStr.isspace; n_cases).
    pose proof (lower_cp_not_upper c) as Hl.
    assert (97 <= PyStr.lower_cp c)%N
      by (unfold is_upper_cp in Hc; unfold PyStr.lower_cp; n_cases).
    assert (PyStr.lower_cp c <= 1152)%N
      by (unfold is_upper_cp in Hc; unfold PyStr.lower_cp; n_cases).
    assert (PyStr.lower_cp c <> 133 /\ PyStr.lower_cp c <> 160)%N
      by (unfold is_upper_cp in Hc; unfold PyStr.lower_cp; n_cases).
    generalize dependent (PyStr.lower_cp c). intros d _ ? ? ?.
    unfold PyStr.isspace. n_cases.
  - by rewrite lower_cp_fixed.
Qed.

Lemma reverse_lower s : reverse (PyStr.lower s) = PyStr.lower (reverse s).
Proof.
  unfold PyStr.lower. induction s as [|c s IH]; [done|].
  simpl. by rewrite !reverse_cons, map_app, IH.
Qed.

Lemma lstrip_lower s : PyStr.lstrip (PyStr.lower s) = PyStr.lower (PyStr.lstrip s).
Proof.
  unfold PyStr.lower. induction s as [|c s IH]; [done|].
  simpl. rewrite isspace_lower_cp. by destruct (PyStr.isspace c).
Qed.

Lemma strip_lower s : PyStr.strip (PyStr.lower s) = PyStr.lower (PyStr.strip s).
Proof.
  unfold PyStr.strip, PyStr.rstrip.
  by rewrite lstrip_lower, reverse_lower, lstrip_lower, reverse_lower.
Qed.

Lemma lstrip_split s : exists sp, s = sp ++ PyStr.lstrip s /\ all_space sp.
Proof.
  induction s as [|c s (sp & Hs & Hsp)]; simpl.
  - exists []. split; [done|constructor].
  - destruct (PyStr.isspace c) eqn:Hc.
    + exists (c :: sp). split; [simpl; congruence|by constructor].
    + exists []. split; [done|constructor].
Qed.

Lemma rstrip_split s : exists sp, s = PyStr.rstrip s ++ sp /\ all_space sp.
Proof.
  unfold PyStr.rstrip.
  destruct (lstrip_split (reverse s)) as (sp & Hs & Hsp).
  exists (reverse sp). split; [|by apply Forall_reverse].
  rewrite <- reverse_app, <- Hs. by rewrite reverse_involutive.
Qed.

Lemma strip_split s :
  exists l r, s = l ++ PyStr.strip s ++ r /\ all_space l /\ all_space r.
Proof.
  destruct (lstrip_split s) as (l & Hl & Hlsp).
  destruct (rstrip_split (PyStr.lstrip s)) as (r & Hr & Hrsp).
  exists l, r. unfold PyStr.strip. by rewrite <- Hr.
Qed.

(** What occurs in the trimmed text occurs in the text. *)
Lemma contains_strip_inv s p :
  PyStr.contains (PyStr.strip s) p = true -> PyStr.contains s p = true.
Proof.
  destruct (strip_split s) as (l & r & Hs & _). intros Hin.
  rewrite Hs. by apply contains_app_r, contains_app_l.
Qed.

Lemma lstrip_idemp s : PyStr.lstrip (PyStr.lstrip s) = PyStr.lstrip s.
Proof.
  induction s as [|c s IH]; [done|]. simpl.
  destruct (PyStr.isspace c) eqn:Hc; [done|]. simpl. by rewrite Hc.
Qed.

Lemma rstrip_idemp s : PyStr.rstrip (PyStr.rstrip s) = PyStr.rstrip s.
Proof. unfold PyStr.rstrip. by rewrite reverse_involutive, lstrip_idemp. Qed.

Lemma lstrip_rstrip_lstrip s :
  PyStr.lstrip (PyStr.rstrip (PyStr.lstrip s)) = PyStr.rstrip (PyStr.lstrip s).
Proof.
  destruct (PyStr.lstrip s) as [|c t] eqn:Ht; [done|].
  assert (Hc : PyStr.isspace c = false).
  { destruct (PyStr.isspace c) eqn:Hc; [|done].
    pose proof (lstrip_idemp s) as Hid. rewrite Ht in Hid.
    simpl in Hid. rewrite Hc in Hid.
    pose proof (lstrip_split t) as (sp & Hsp & _).
    apply (f_equal length) in Hid. rewrite Hsp in Hid at 2.
    simpl in Hid. rewrite length_app in Hid. lia. }
  destruct (rstrip_keeps [] [] c t Hc) as [b' Hb]. simpl in Hb.
  rewrite Hb. simpl. by rewrite Hc.
Qed.

Lemma strip_idemp s : PyStr.strip (PyStr.strip s) = PyStr.strip s.
Proof.
  unfold PyStr.strip. by rewrite lstrip_rstrip_lstrip, rstrip_idemp.
Qed.

Lemma split_ws_from_spaces cur sp :
  all_space sp ->
  PyStr.split_ws_from cur sp = match cur with [] => [] | _ => [reverse cur] end.
Proof.
  intros Hsp. revert cur. induction Hsp as [|c sp Hc _ IH]; intros cur.
  - done.
  - simpl. rewrite Hc. destruct cur; by rewrite IH.
Qed.

Lemma split_ws_from_app_spaces cur s sp :
  all_space sp ->
  PyStr.split_ws_from cur (s ++ sp) = PyStr.split_ws_from cur s.
Proof.
  intros Hsp. revert cur. induction s as [|c s IH]; intros cur; simpl.
  - by apply split_ws_from_spaces.
  - destruct (PyStr.isspace c); [destruct cur|]; by rewrite IH.
Qed.

Lemma split_ws_spaces_app sp s :
  all_space sp -> PyStr.split_ws (sp ++ s) = PyStr.split_ws s.
Proof.
  unfold PyStr.split_ws. induction 1 as [|c sp Hc _ IH]; [done|].
  simpl. by rewrite Hc.
Qed.

(** Trimming does not change the words of a text. *)
Lemma split_ws_strip s : PyStr.split_ws (PyStr.strip s) = PyStr.split_ws s.
Proof.
  destruct (strip_split s) as (l & r & Hs & Hl & Hr).
  rewrite Hs at 2. rewrite split_ws_spaces_app by done.
  unfold PyStr.split_ws. by rewrite split_ws_from_app_spaces.
Qed.

(** ** The classifier: what it depends on *)

Lemma determine_intent_context_free dm dm' message :
  _determine_intent dm message = _determine_intent dm' message.
Proof. by rewrite !determine_intent_by_rules. Qed.

(** X1.  The answer of the classifier does not depend on the dialog
    context: the rule that looks at the previous entry never changes the
    result. *)
Theorem determine_intent_ignores_context dm dm' message :
  _determine_intent dm message = _determine_intent dm' message.
Proof. apply determine_intent_context_free. Qed.

(** X2.  The answer of the classifier does not depend on the letter case
    of the message nor on white space around it. *)
Theorem determine_intent_normalizes dm message :
  _determine_intent dm (PyStr.lower message) = _determine_intent dm message /\
  _determine_intent dm (PyStr.strip message) = _determine_intent dm message.
Proof.
  rewrite !determine_intent_by_rules. unfold classify_by_rules. split.
  - by rewrite lower_idemp.
  - by rewrite <- strip_lower, strip_idemp.
Qed.

Lemma any_in_strip_inv s words :
  any_in (PyStr.strip s) words = true -> any_in s words = true.
Proof.
  unfold any_in. rewrite !existsb_exists.
  intros (w & Hw & Hin). exists w. split; [done|by apply contains_strip_inv].
Qed.

Lemma determine_intent_search dm message :
  _determine_intent dm message = Intent.search_news ->
  any_in (PyStr.lower message) search_words = true.
Proof.
  unfold _determine_intent. intros Hintent. apply any_in_strip_inv.
  repeat case_match; done.
Qed.

(** X3.  When the classifier answers [search_news], the query extractor
    finds one of the three search words in the lower-cased message and
    returns the trimmed text after it: the whole message is never used as
    the query on this path. *)
Theorem search_intent_finds_trigger dm message :
  _determine_intent dm message = Intent.search_news ->
  exists trigger before after,
    trigger ∈ search_words /\
    PyStr.lower message = before ++ trigger ++ after /\
    _extract_search_query message = PyStr.strip after.
Proof.
  intros Hin%determine_intent_search.
  assert (Hne : Forall (fun p : pystr => p <> []) search_prefixes)
    by (repeat constructor; done).
  pose proof (extract_loop_first (PyStr.lower message) search_prefixes Hne)
    as Hloop.
  unfold _extract_search_query.
  unfold any_in, search_words in Hin. unfold search_prefixes in Hloop |- *.
  simpl in Hin. simpl List.find in Hloop.
  repeat match type of Hloop with
         | context [if ?b then _ else _] => destruct b eqn:?
         end; try (simpl in Hin; discriminate Hin).
  all: destruct Hloop as (before & after & Htext & _ & ->);
    eexists _, before, after; (split; [|done]); unfold search_words;
    rewrite !elem_of_cons; tauto.
Qed.

(** ** Outcomes of [process_message] *)

Section Outcomes.

Context {W : Type} `{NewsStore W, Analyzer W, Clock W}.
Implicit Types s : St W.

Lemma handle_latest_news_eq limit s :
  int_or_none limit ->
  _handle_latest_news limit s =
    (Ok (latest_outcome (get_latest_news limit (world s)).1),
     {| self := self s; world := (get_latest_news limit (world s)).2;
        calls := calls s ++ [CallGetLatestNews limit] |}).
Proof.
  intros Hlimit.
  unfold _handle_latest_news, try_except, mbind, M_bind, call, guard_limit.
  destruct limit as [|n|str]; [| |done];
    simpl; by destruct (get_latest_news _ (world s)) as [[items|e] w].
Qed.

(** X4.  For an [int] or [None] limit the latest-news handler asks the
    store once and always returns: the response built from the news, or
    the error response when the store raised. *)
Theorem handle_latest_news_outcome limit s :
  int_or_none limit ->
  _handle_latest_news limit s =
    (Ok (latest_outcome (get_latest_news limit (world s)).1),
     {| self := self s; world := (get_latest_news limit (world s)).2;
        calls := calls s ++ [CallGetLatestNews limit] |}).
Proof. apply handle_latest_news_eq. Qed.

Lemma intent_says_latest dm message :
  _determine_intent dm message = Intent.get_latest_news ->
  PyStr.contains (PyStr.lower message) kw_all_news = false /\
  (PyStr.contains (PyStr.lower message) kw_news = true ->
   existsb PyStr.isdigit (PyStr.split_ws (PyStr.lower message)) = false).
Proof.
  unfold _determine_intent. intros Hintent.
  rewrite <- (split_ws_strip (PyStr.lower message)).
  set (text := PyStr.strip (PyStr.lower message)) in *.
  destruct (PyStr.contains text kw_all_news) eqn:Hall; [done|].
  split.
  - apply not_true_is_false. intros Hin. apply not_true_iff_false in Hall.
    apply Hall. revert Hin.
    change kw_all_news with
      (1074 :: removelast (tail kw_all_news) ++ [1080])%N.
    by apply contains_strip.
  - intros Hnews.
    assert (PyStr.contains text kw_news = true) as Hnews'.
    { revert Hnews.
      change kw_news with (1085 :: removelast (tail kw_news) ++ [1080])%N.
      by apply contains_strip. }
    rewrite Hnews' in Hintent. simpl in Hintent.
    repeat case_match; done.
Qed.

Lemma second_word_not_digit (words : list pystr) :
  existsb PyStr.isdigit words = false ->
  match words with
  | _ :: word :: _ => PyStr.isdigit word = false
  | _ => True
  end.
Proof.
  destruct words as [|w1 [|w2 ws]]; simpl; try done.
  rewrite !orb_false_iff. tauto.
Qed.

(** The branch for [get_latest_news], for a message the classifier sends
    there: two queries, the first always with limit 5 and its answer
    dropped. *)
Lemma latest_branch_outcome message s :
  _determine_intent (self s) message = Intent.get_latest_news ->
  let first := get_latest_news (LInt 5) (world s) in
  let second := get_latest_news (second_limit message) first.2 in
  latest_branch message s =
    (Ok (latest_outcome second.1),
     {| self := self s; world := second.2;
        calls := calls s ++ [CallGetLatestNews (LInt 5);
                             CallGetLatestNews (second_limit message)] |}).
Proof.
  intros [Hall Hdigit]%intent_says_latest. simpl.
  unfold latest_branch, second_limit. rewrite Hall.
  unfold mbind, M_bind, try_except, try_except_of, int_of_last_word.
  destruct (PyStr.contains (PyStr.lower message) kw_news) eqn:Hnews.
  - specialize (Hdigit eq_refl). apply second_word_not_digit in Hdigit.
    assert (Hfirst :
      match PyStr.split_ws (PyStr.lower message) with
      | _ :: word :: _ =>
          if PyStr.isdigit word
          then match PyStr.int word with
               | Some n => _handle_latest_news (LInt n)
               | None => raise (Exn ValueError word)
               end
          else _handle_latest_news (LInt 5)
      | _ => _handle_latest_news (LInt 5)
      end = (_handle_latest_news (LInt 5) : M W Response)).
    { destruct (PyStr.split_ws (PyStr.lower message)) as [|w1 [|w2 ws]];
        [done..|]. by rewrite Hdigit. }
    rewrite Hfirst, handle_latest_news_eq by done. cbn [fst snd].
    destruct (last (PyStr.split_ws message)) as [word|]; simpl.
    + destruct (PyStr.int word) as [n|]; simpl;
        rewrite handle_latest_news_eq by done; simpl;
        by rewrite <- app_assoc.
    + rewrite handle_latest_news_eq by done. simpl.
      by rewrite <- app_assoc.
  - rewrite handle_latest_news_eq by done. cbn [fst snd].
    rewrite handle_latest_news_eq by done. simpl.
    by rewrite <- app_assoc.
Qed.

Lemma latest_outcome_full answer : full_response (latest_outcome answer).
Proof.
  destruct answer; [apply latest_news_response_full|].
  apply full_response_intro. solve_type.
Qed.

(** X5.  A message classified [get_latest_news] makes [process_message] query
    the store exactly twice, first with limit 5, then with the limit read
    from the last word of the message; the call returns, and the response
    is built from the second answer alone. *)
Theorem process_message_latest_path message dm (w : W) :
  is_update_command message = false ->
  _determine_intent dm message = Intent.get_latest_news ->
  let first := get_latest_news (LInt 5) (now_isoformat w).2 in
  let second := get_latest_news (second_limit message) first.2 in
  let out := run (process_message message) dm w in
  out.1 = Ok (latest_outcome second.1) /\
  calls out.2 = [CallGetLatestNews (LInt 5);
                 CallGetLatestNews (second_limit message)].
Proof.
  intros Hupdate Hintent. simpl.
  unfold run, process_message, add_to_context, now, get_self, set_self.
  unfold mbind, M_bind. simpl.
  destruct (now_isoformat w) as [t w1]. simpl. rewrite Hupdate.
  unfold intent_branch, get_self, mbind, M_bind. simpl.
  rewrite (determine_intent_context_free _ dm), Hintent.
  rewrite latest_branch_outcome
    by (by rewrite (determine_intent_context_free _ dm)).
  cbn [self world calls fst snd].
  destruct (latest_outcome_full
              (get_latest_news (second_limit message)
                 (get_latest_news (LInt 5) w1).2).1)
    as (text & data & type & -> & _).
  unfold get_text. rewrite response_text. simpl.
  by destruct (now_isoformat _).
Qed.

Lemma intent_branch_outcome message s :
  wp (intent_branch message)
     (fun r s' =>
        self s' = self s /\
        (forall resp, r = Ok resp -> full_response resp) /\
        (forall e, r = Raise e ->
                   may_raise (_determine_intent (self s) message) = true)) s.
Proof.
  unfold intent_branch. apply wp_bind, wp_get_self.
  pose proof (extends_refl s) as Hs.
  destruct (_determine_intent (self s) message) eqn:Hintent.
  1-3, 7: apply wp_ret; split; [done|]; split; [|done];
    intros ? [= <-]; apply full_response_intro; solve_type.
  1-3: eapply wp_mono;
    [|first [ by apply handle_search_news_post
            | by apply handle_analyze_news_post
            | by apply handle_get_summary_post ]];
    by intros r s' [[? _] ?].
  eapply wp_mono; [|by apply latest_branch_returns].
  intros r s' [[[? _] ?] [resp ->]]. done.
Qed.

(** What a call of [process_message] that raises leaves behind, and when
    a call can raise at all. *)
Lemma process_message_outcome message s :
  wp (process_message message)
     (fun r s' =>
        forall e, r = Raise e ->
          is_update_command message = false /\
          may_raise (_determine_intent (self s) message) = true /\
          exists t_user,
            self s' =
              append_entry
                {| role := role_user; content := message;
                   timestamp := t_user |} (self s)) s.
Proof.
  unfold process_message. apply wp_bind.
  eapply wp_mono; [|apply add_to_context_post].
  intros r1 s1 (-> & Hc1 & t_user & Hself1). apply wp_bind.
  destruct (is_update_command message).
  - eapply wp_mono; [|apply update_branch_post].
    intros r2 s2 (Hself2 & Hc2 & text & ->).
    apply wp_bind. unfold get_text. rewrite text_only_text.
    apply wp_ret, wp_bind.
    eapply wp_mono; [|apply add_to_context_post].
    intros r3 s3 (-> & _). by apply wp_ret.
  - eapply wp_mono; [|apply intent_branch_outcome].
    intros [resp|e] s2 (Hself2 & Hfull & Hraise).
    + destruct (Hfull resp eq_refl) as (text & data & type & -> & _).
      apply wp_bind. unfold get_text. rewrite response_text.
      apply wp_ret, wp_bind.
      eapply wp_mono; [|apply add_to_context_post].
      intros r3 s3 (-> & _). by apply wp_ret.
    + intros e' [= <-]. split; [done|]. split.
      * rewrite (determine_intent_context_free _ (self s1)).
        by apply (Hraise e).
      * exists t_user. congruence.
Qed.

(** X6.  [process_message] returns a response, whatever the collaborators do,
    for every update command and for every message that is not classified
    as a search, an analysis or a summary request. *)
Theorem process_message_returns message s :
  is_update_command message = true \/
  may_raise (_determine_intent (self s) message) = false ->
  exists response, (process_message message s).1 = Ok response.
Proof.
  intros Hsafe. pose proof (process_message_outcome message s) as Hout.
  unfold wp in Hout. destruct (process_message message s).1 as [r|e].
  - by exists r.
  - destruct (Hout e eq_refl) as (Hupdate & Hraise & _).
    destruct Hsafe; congruence.
Qed.

(** X7.  When [process_message] raises, the message was a search, an analysis or
    a summary request, and the manager has recorded the user's message but
    no reply: with a context size of at least 1 the context ends with the
    user's entry. *)
Theorem process_message_raise_leaves_user_entry message s e s' :
  (1 <= context_size (self s))%Z ->
  process_message message s = (Raise e, s') ->
  may_raise (_determine_intent (self s) message) = true /\
  exists older t_user,
    context (self s') =
      older ++ [{| role := role_user; content := message;
                   timestamp := t_user |}] /\
    older `suffix_of` context (self s).
Proof.
  intros Hsize Hrun.
  destruct (wp_run _ _ _ _ _ (process_message_outcome message s) Hrun e
              eq_refl) as (_ & Hraise & t_user & Hself).
  split; [done|]. rewrite Hself, append_entry_context by done.
  rewrite drop_app_le by lia.
  eexists _, t_user. split; [done|]. apply suffix_drop.
Qed.

Lemma append_entry_bounded e dm :
  (1 <= context_size dm)%Z ->
  (Z.of_nat (length (context (append_entry e dm))) <= context_size dm)%Z.
Proof.
  intros Hsize. rewrite append_entry_context by done.
  rewrite length_drop, length_app. simpl. lia.
Qed.

(** X8.  After any call of [process_message], returning or raising, the context
    is within the context size (of at least 1), whatever its length was
    before; the context size itself never changes. *)
Theorem process_message_context_bounded message s :
  (1 <= context_size (self s))%Z ->
  let dm' := self (process_message message s).2 in
  context_size dm' = context_size (self s) /\
  (Z.of_nat (length (context dm')) <= context_size (self s))%Z.
Proof.
  intros Hsize. simpl.
  pose proof (process_message_post message s) as [_ Hok].
  pose proof (process_message_outcome message s) as Hraise.
  unfold wp in Hraise.
  destruct (process_message message s) as [[r|e] s']; simpl in *.
  - destruct (Hok r eq_refl) as (text & t1 & t2 & _ & _ & ->).
    split; [done|]. by apply (append_entry_bounded _ (append_entry _ _)).
  - destruct (Hraise e eq_refl) as (_ & _ & t1 & ->).
    split; [done|]. by apply append_entry_bounded.
Qed.

End Outcomes.

(** ** The news store: order of the latest news *)

Lemma ltb_irrefl a : PyStr.ltb a a = false.
Proof.
  induction a as [|x a IH]; [done|]. simpl.
  rewrite N.ltb_irrefl, N.eqb_refl. done.
Qed.

Lemma ltb_asym a b : PyStr.ltb a b = true -> PyStr.ltb b a = false.
Proof.
  revert b. induction a as [|x a IH]; intros [|y b]; simpl; try done.
  destruct (N.ltb_spec x y), (N.ltb_spec y x), (N.eqb_spec x y),
    (N.eqb_spec y x); simpl; try lia; try done.
  apply IH.
Qed.

Lemma ltb_ge_trans a b c :
  PyStr.ltb a b = false -> PyStr.ltb b c = false -> PyStr.ltb a c = false.
Proof.
  revert b c. induction a as [|x a IH]; intros [|y b] [|z c]; simpl;
    try done.
  destruct (N.ltb_spec x y), (N.ltb_spec y z), (N.ltb_spec x z),
    (N.eqb_spec x y), (N.eqb_spec y z), (N.eqb_spec x z);
    simpl; try lia; try done.
  apply IH.
Qed.

Lemma insert_desc_sorted x l :
  StronglySorted date_ge l -> StronglySorted date_ge (NewsParser.insert_desc x l).
Proof.
  induction 1 as [|y l Hl IH Hy]; simpl.
  - by repeat constructor.
  - destruct (PyStr.ltb _ _) eqn:Hlt.
    + constructor; [done|].
      rewrite Forall_forall. intros z Hz.
      rewrite insert_desc_perm in Hz.
      apply elem_of_cons in Hz as [->|Hz].
      * by apply ltb_asym.
      * rewrite Forall_forall in Hy. by apply Hy.
    + constructor; [by constructor|]. constructor; [done|].
      eapply Forall_impl; [exact Hy|]. intros z Hz.
      by apply (ltb_ge_trans _ (NewsParser.date_key y)).
Qed.

Lemma sorted_desc_sorted l : StronglySorted date_ge (NewsParser.sorted_desc l).
Proof.
  induction l as [|x l IH]; simpl; [constructor|].
  by apply insert_desc_sorted.
Qed.

(** X9.  Without a limit the store returns every cached item once, latest
    first: no item is followed by one with a later date. *)
Theorem get_latest_news_all_sorted cache :
  NewsParser.get_latest_news cache LNone ≡ₚ NewsParser.values cache /\
  StronglySorted date_ge (NewsParser.get_latest_news cache LNone).
Proof. split; [apply sorted_desc_perm|apply sorted_desc_sorted]. Qed.

Lemma sorted_take_drop (l : list NewsItem) k x y :
  StronglySorted date_ge l -> x ∈ take k l -> y ∈ drop k l -> date_ge x y.
Proof.
  intros Hl. rewrite <- (take_drop k l) in Hl.
  revert Hl. generalize (take k l) (drop k l). intros l1 l2 Hl Hx Hy.
  induction l1 as [|z l1 IH]; [by apply elem_of_nil in Hx|].
  simpl in Hl. apply StronglySorted_inv in Hl as [Hl Hz].
  apply elem_of_cons in Hx as [->|Hx]; [|by apply IH].
  rewrite Forall_forall in Hz. apply Hz.
  apply elem_of_app. by right.
Qed.

(** X10.  With a limit [n] other than 0 the store returns the first items of
    that order: [n] of them for a positive [n], all but the last [-n] for a
    negative one; every item returned is at least as late as every item
    left out. *)
Theorem get_latest_news_limit cache n :
  n <> 0%Z ->
  let all := NewsParser.get_latest_news cache LNone in
  let k := kept n (length cache) in
  NewsParser.get_latest_news cache (LInt n) = take k all /\
  length (NewsParser.get_latest_news cache (LInt n)) = min k (length cache) /\
  forall x y, x ∈ take k all -> y ∈ drop k all -> date_ge x y.
Proof.
  intros Hn. simpl.
  assert (Hlen : length (NewsParser.sorted_desc (NewsParser.values cache))
                 = length cache).
  { rewrite sorted_desc_perm. unfold NewsParser.values.
    by rewrite length_map. }
  assert (Heq : NewsParser.get_latest_news cache (LInt n)
                = take (kept n (length cache))
                    (NewsParser.get_latest_news cache LNone)).
  { unfold NewsParser.get_latest_news, NewsParser.truthy, slice_to, kept.
    simpl. destruct (Z.eqb_spec n 0); [done|]. simpl.
    rewrite Hlen. by destruct (n <? 0)%Z. }
  split; [done|]. split.
  - rewrite Heq, length_take. unfold NewsParser.get_latest_news. simpl.
    by rewrite Hlen.
  - intros x y. apply sorted_take_drop, sorted_desc_sorted.
Qed.

Lemma insert_desc_same_date d x l :
  filter (fun y => NewsParser.date_key y = d) (NewsParser.insert_desc x l) =
  filter (fun y => NewsParser.date_key y = d) (x :: l).
Proof.
  induction l as [|y l IH]; simpl; [done|].
  destruct (PyStr.ltb _ _) eqn:Hlt; [|done].
  rewrite (filter_cons _ y), IH, !(filter_cons _ x), !(filter_cons _ y).
  repeat case_decide; try done.
  assert (NewsParser.date_key x = NewsParser.date_key y) as Heq by congruence.
  rewrite Heq, ltb_irrefl in Hlt. done.
Qed.

(** X11.  The order is stable: the items that carry one and the same date come
    out in the order they have in the cache. *)
Theorem get_latest_news_stable cache d :
  filter (fun x => NewsParser.date_key x = d)
    (NewsParser.get_latest_news cache LNone) =
  filter (fun x => NewsParser.date_key x = d) (NewsParser.values cache).
Proof.
  unfold NewsParser.get_latest_news. simpl.
  induction (NewsParser.values cache) as [|x l IH]; [done|].
  simpl. rewrite insert_desc_same_date, !filter_cons. by rewrite IH.
Qed.

(** ** The news store: search *)

Lemma search_loop_spec query limit items results :
  let k := Z.to_nat (Z.max 1 limit) in
  length results < k ->
  NewsParser.search_loop query limit items results =
  results ++ take (k - length results) (filter (fun x => news_matches query x) items).
Proof.
  intros k. revert results. induction items as [|news rest IH];
    intros results Hlen; cbn [NewsParser.search_loop].
  - by rewrite filter_nil, take_nil, app_nil_r.
  - rewrite filter_cons. fold (news_matches query news).
    destruct (news_matches query news) eqn:Hm.
    + rewrite decide_True by done.
      rewrite length_app. simpl.
      destruct (Z.leb_spec limit (Z.of_nat (length results + 1))).
      * replace (k - length results) with 1 by lia.
        simpl. by rewrite take_0.
      * rewrite IH by (rewrite length_app; simpl; lia).
        rewrite <- app_assoc, length_app. simpl.
        replace (k - length results) with (S (k - (length results + 1)))
          by lia.
        done.
    + rewrite decide_False by (by intros []). by apply IH.
Qed.

(** X12.  [search_news] returns the items whose lower-cased title or content
    contains the lower-cased query, in cache order, cut after [limit] of
    them; a limit of 0 or less still lets the first match through. *)
Theorem search_news_spec cache query limit :
  NewsParser.search_news cache query limit =
  take (Z.to_nat (Z.max 1 limit))
    (filter (fun x => news_matches (PyStr.lower query) x)
       (NewsParser.values cache)).
Proof.
  unfold NewsParser.search_news.
  rewrite search_loop_spec by (simpl; lia). simpl. f_equal. lia.
Qed.

(** ** The news store: refresh of the cache *)

Lemma dict_get_set k k' v d :
  dict_get k' (NewsParser.dict_set k v d) =
  if bool_decide (k' = k) then Some v else dict_get k' d.
Proof.
  induction d as [|[k0 v0] d IH]; simpl.
  - done.
  - destruct (bool_decide_reflect (k = k0)) as [->|Hne]; simpl.
    + by destruct (bool_decide (k' = k0)).
    + rewrite IH. repeat case_bool_decide; congruence.
Qed.

Lemma dict_set_keys k v d :
  (NewsParser.dict_set k v d).*1 = if bool_decide (k ∈ d.*1) then d.*1 else d.*1 ++ [k].
Proof.
  induction d as [|[k0 v0] d IH]; [done|]. cbn [NewsParser.dict_set].
  destruct (bool_decide_reflect (k = k0)) as [->|Hne]; rewrite !fmap_cons;
    cbn [fst].
  - rewrite bool_decide_true by apply list_elem_of_here. done.
  - rewrite IH. destruct (decide (k ∈ d.*1)) as [Hin|Hin].
    + rewrite bool_decide_true by done.
      by rewrite bool_decide_true by (by right).
    + rewrite bool_decide_false by done.
      by rewrite bool_decide_false by (by intros [?|?]%elem_of_cons).
Qed.

Lemma dict_set_NoDup k v d :
  NoDup d.*1 -> NoDup (NewsParser.dict_set k v d).*1.
Proof.
  intros Hd. rewrite dict_set_keys. case_bool_decide as Hin; [done|].
  apply NoDup_app. split; [done|]. split; [|apply NoDup_singleton].
  intros x Hx ->%list_elem_of_singleton. done.
Qed.

Lemma by_id_spec items d d' :
  NewsParser.by_id items d = Some d' ->
  (NoDup d.*1 -> NoDup d'.*1) /\
  forall k,
    dict_get k d' =
      match last (filter (fun x => x !! "id" = Some k) items) with
      | Some v => Some v
      | None => dict_get k d
      end.
Proof.
  revert d. induction items as [|x rest IH]; intros d; simpl.
  - by intros [= <-].
  - destruct (x !! "id") as [id|] eqn:Hid; [|done].
    intros [Hnodup Hget]%IH. split.
    + intros Hd. by apply Hnodup, dict_set_NoDup.
    + intros k. rewrite Hget, dict_get_set, filter_cons.
      destruct (decide (x !! "id" = Some k)) as [Hk|Hk].
      * rewrite last_cons. assert (id = k) as -> by congruence.
        rewrite bool_decide_true by done. by destruct (last _).
      * rewrite bool_decide_false by congruence. done.
Qed.

Lemma by_id_None items d :
  NewsParser.by_id items d = None <-> exists x, x ∈ items /\ x !! "id" = None.
Proof.
  revert d. induction items as [|x rest IH]; intros d; simpl.
  - split; [done|]. by intros (x & ?%elem_of_nil & _).
  - destruct (x !! "id") as [id|] eqn:Hid.
    + rewrite IH. split.
      * intros (y & Hy & Hnone). exists y. split; [by right|done].
      * intros (y & [->|Hy]%elem_of_cons & Hnone); [congruence|by exists y].
    + split; [|done]. intros _. exists x. split; [by left|done].
Qed.

(** X13.  When every scraped item has an id, [update_news] returns the scraped
    items and replaces the cache: the new cache has one entry per id, and
    the entry of an id is the last scraped item with that id.  Nothing of
    the old cache is kept. *)
Theorem update_news_cache p :
  Forall (fun x => is_Some (x !! "id")) (NewsParser.scraped p) ->
  let out := NewsParser.update_news p in
  out.1 = NewsParser.scraped p /\
  NoDup (NewsParser.news_cache out.2).*1 /\
  forall k,
    dict_get k (NewsParser.news_cache out.2) =
    last (filter (fun x => x !! "id" = Some k) (NewsParser.scraped p)).
Proof.
  intros Hids. unfold NewsParser.update_news. simpl.
  destruct (NewsParser.by_id (NewsParser.scraped p) []) as [cache|] eqn:Hby.
  - destruct (by_id_spec _ _ _ Hby) as [Hnodup Hget]. simpl.
    split; [done|]. split; [apply Hnodup, NoDup_nil_2|].
    intros k. rewrite Hget. by destruct (last _).
  - apply by_id_None in Hby as (x & Hx & Hnone).
    rewrite Forall_forall in Hids. destruct (Hids x Hx) as [id Hid].
    congruence.
Qed.

(** X14.  When a scraped item has no id, [update_news] returns the empty list
    and leaves the cache as it was. *)
Theorem update_news_missing_id p x :
  x ∈ NewsParser.scraped p -> x !! "id" = None ->
  NewsParser.update_news p = ([], p).
Proof.
  intros Hx Hnone. unfold NewsParser.update_news.
  assert (NewsParser.by_id (NewsParser.scraped p) [] = None) as ->; [|done].
  apply by_id_None. by exists x.
Qed.

(** ** The news store: item ids *)

Lemma split_char_from_last sep cur s :
  sep ∉ cur ->
  exists prefix part,
    last (split_char_from sep cur s) = Some part /\
    reverse cur ++ s = prefix ++ part /\
    (sep ∉ part) /\
    (prefix = [] \/ last prefix = Some sep).
Proof.
  revert cur. induction s as [|c s IH]; intros cur Hcur;
    cbn [split_char_from].
  - exists [], (reverse cur). split; [done|].
    split; [by rewrite app_nil_r|]. split; [|by left].
    intros Hin. by rewrite elem_of_reverse in Hin.
  - destruct (N.eqb_spec c sep) as [->|Hc].
    + destruct (IH [] (not_elem_of_nil _))
        as (prefix & part & Hlast & Hs & Hpart & Hpre).
      exists (reverse cur ++ sep :: prefix), part.
      rewrite last_cons, Hlast. simpl in Hs. rewrite Hs.
      split; [done|]. split; [rewrite <- app_assoc; reflexivity|].
      split; [done|]. right. rewrite last_app, last_cons.
      by destruct Hpre as [->| ->].
    + destruct (IH (c :: cur)) as (prefix & part & Hlast & Hs & Hpart & Hpre).
      { rewrite not_elem_of_cons. split; [congruence|done]. }
      exists prefix, part. rewrite reverse_cons, <- app_assoc in Hs. auto.
Qed.

(** X15.  For a non-empty text the id is what follows the last slash: the text
    ends with the id, the id has no slash, and what is in front of it is
    empty or ends with a slash; neither digest is used.  So a text that ends
    with a slash gets the empty id. *)
Theorem generate_id_last_segment now_digest digest text :
  text <> [] ->
  let id := _generate_id now_digest digest text in
  (exists prefix,
      text = prefix ++ id /\ (prefix = [] \/ last prefix = Some 47%N)) /\
  (47%N ∉ id) /\
  (last text = Some 47%N -> id = []).
Proof.
  intros Htext. simpl.
  destruct (split_char_from_last 47 [] text (not_elem_of_nil _))
    as (prefix & part & Hlast & Hs & Hpart & Hpre).
  assert (_generate_id now_digest digest text = part) as ->.
  { unfold _generate_id, split_char. rewrite Hlast. by destruct text. }
  simpl in Hs. split; [by exists prefix|]. split; [done|].
  intros Hslash. rewrite Hs, last_app in Hslash.
  destruct (last part) as [c|] eqn:Hc; [|by apply last_None].
  injection Hslash as ->. apply last_Some_elem_of in Hc. done.
Qed.

(** ** The listings *)

Lemma render_latest_cons i news rest :
  render_latest i (news :: rest) = latest_entry i news ++ render_latest (S i) rest.
Proof.
  unfold latest_entry. cbn [render_latest]. by rewrite <- !app_assoc.
Qed.

Lemma render_search_cons i news rest :
  render_search i (news :: rest) = search_entry i news ++ render_search (S i) rest.
Proof.
  unfold search_entry. cbn [render_search]. by rewrite <- !app_assoc.
Qed.

Lemma render_latest_entry i items k news :
  items !! k = Some news ->
  PyStr.contains (render_latest i items) (latest_entry (i + k) news) = true.
Proof.
  revert i k. induction items as [|x rest IH]; intros i [|k] Hk; try done.
  - injection Hk as ->. rewrite render_latest_cons, Nat.add_0_r.
    apply (contains_middle []).
  - rewrite render_latest_cons. apply contains_app_r.
    replace (i + S k) with (S i + k) by lia. by apply IH.
Qed.

Lemma render_search_entry i items k news :
  items !! k = Some news ->
  PyStr.contains (render_search i items) (search_entry (i + k) news) = true.
Proof.
  revert i k. induction items as [|x rest IH]; intros i [|k] Hk; try done.
  - injection Hk as ->. rewrite render_search_cons, Nat.add_0_r.
    apply (contains_middle []).
  - rewrite render_search_cons. apply contains_app_r.
    replace (i + S k) with (S i + k) by lia. by apply IH.
Qed.

(** X16.  The response for a non-empty list of news carries the list as its data;
    its text starts with the number of items and lists every item under its
    position, counted from 1, with the defaults for missing fields. *)
Theorem latest_news_response_lists_items items :
  items <> [] ->
  exists text,
    latest_news_response items = response text (VNews items) ty_latest_news /\
    PyStr.startswith text
      (txt_latest_head ++ PyStr.of_nat (length items) ++ txt_latest_head_end)
    = true /\
    forall k news,
      items !! k = Some news ->
      PyStr.contains text (latest_entry (S k) news) = true.
Proof.
  intros Hitems. destruct items as [|x rest]; [done|].
  eexists. split; [reflexivity|]. split.
  - apply startswith_spec. eexists. rewrite <- !app_assoc. reflexivity.
  - intros k news Hk. do 5 apply contains_app_r. apply contains_app_l.
    by apply (render_latest_entry 1).
Qed.

Section SearchOutcome.

Context {W : Type} `{NewsStore W}.
Implicit Types s : St W.

(** X17.  The search handler asks the store once, with the query and the limit it
    was given.  When the store answers, the handler returns a response of
    type [search_news] whose text quotes the query: without data when
    nothing was found, else with the results as data, each listed under its
    position counted from 1. *)
Theorem handle_search_news_outcome query limit s results w :
  search_news query limit (world s) = (Ok results, w) ->
  exists text,
    _handle_search_news query limit s =
      (Ok (response text
             (match results with [] => VNone | _ => VNews results end)
             ty_search_news),
       {| self := self s; world := w;
          calls := calls s ++ [CallSearchNews query limit] |}) /\
    PyStr.contains text query = true /\
    forall k news,
      results !! k = Some news ->
      PyStr.contains text (search_entry (S k) news) = true.
Proof.
  intros Hsearch.
  unfold _handle_search_news, mbind, M_bind, call. rewrite Hsearch.
  destruct results as [|x rest]; eexists; (split; [reflexivity|]).
  - split; [apply contains_app_r, (contains_middle [])|done].
  - split; [apply contains_app_r, (contains_middle [])|].
    intros k news Hk. do 5 apply contains_app_r. apply contains_app_l.
    by apply (render_search_entry 1).
Qed.

End SearchOutcome.

Section AnalyzeOutcome.
Context {W : Type} `{NewsStore W, Analyzer W}.
Implicit Types s : St W.

Lemma analyze_each_run items s :
  (exists results w',
      analyzed (world s) items results w' /\
      analyze_each items s =
        (Ok results,
         {| self := self s; world := w';
            calls := calls s ++ (CallAnalyzeNews <$> items) |})) \/
  (exists before news after results w1 e w2,
      items = before ++ news :: after /\
      analyzed (world s) before results w1 /\
      analyze_news news w1 = (Raise e, w2) /\
      analyze_each items s =
        (Raise e,
         {| self := self s; world := w2;
            calls := calls s ++ (CallAnalyzeNews <$> before ++ [news]) |})).
Proof.
  revert s. induction items as [|news rest IH]; intros s.
  - left. exists [], (world s). split; [constructor|].
    simpl. rewrite app_nil_r. by destruct s.
  - cbn [analyze_each]. unfold mbind, M_bind, call.
    destruct (analyze_news news (world s)) as [[analysis|e] w] eqn:Hfirst.
    + destruct (IH {| self := self s; world := w;
                      calls := calls s ++ [CallAnalyzeNews news] |})
        as [(results & w' & Hrun & ->)
           |(before & x & after & results & w1 & e & w2
             & -> & Hrun & Hraise & ->)]; simpl in *.
      * left. exists ((news, analysis) :: results), w'.
        split; [by econstructor|]. by rewrite <- app_assoc.
      * right. exists (news :: before), x, after,
          ((news, analysis) :: results), w1, e, w2.
        split; [done|]. split; [by econstructor|]. split; [done|].
        by rewrite <- app_assoc.
    + right. exists [], news, rest, [], (world s), e, w.
      split; [done|]. split; [constructor|]. done.
Qed.

(** X25.  Given the latest news from the store, the analyze handler asks the
    analyzer for the items one by one, in the store's order.  For an empty
    answer it returns the nothing-to-analyze response and asks the analyzer
    nothing.  Otherwise, either the analyzer answered for every item, and
    the handler returns the response built from the pairs of item and
    returned analysis, in that order; or the analyzer raised at some item
    after answering for all items before it, and the handler raises that
    exception, having asked for no item after that one.  In each case the
    record of calls is the store call followed by the analyzer calls
    made. *)
Theorem handle_analyze_news_calls limit s items w :
  get_latest_news (LInt limit) (world s) = (Ok items, w) ->
  let after_calls w' seen :=
    {| self := self s; world := w';
       calls := calls s ++ CallGetLatestNews (LInt limit)
                  :: (CallAnalyzeNews <$> seen) |} in
  match items with
  | [] =>
      _handle_analyze_news limit s =
        (Ok (response txt_nothing_to_analyze VNone ty_analyze_news),
         after_calls w [])
  | _ =>
      (exists results w',
          analyzed w items results w' /\
          _handle_analyze_news limit s =
            (Ok (analysis_response results), after_calls w' items)) \/
      (exists before news after results w1 e w2,
          items = before ++ news :: after /\
          analyzed w before results w1 /\
          analyze_news news w1 = (Raise e, w2) /\
          _handle_analyze_news limit s =
            (Raise e, after_calls w2 (before ++ [news])))
  end.
Proof.
  intros Hlatest. cbv zeta.
  unfold _handle_analyze_news, mbind, M_bind, call. rewrite Hlatest.
  destruct items as [|item0 rest]; [done|].
  destruct (analyze_each_run (item0 :: rest)
              {| self := self s; world := w;
                 calls := calls s ++ [CallGetLatestNews (LInt limit)] |})
    as [(results & w' & Hrun & ->)
       |(before & x & after & results & w1 & e & w2
         & Hitems & Hrun & Hraise & ->)]; simpl in *.
  - left. exists results, w'. split; [done|]. by rewrite <- app_assoc.
  - right. exists before, x, after, results, w1, e, w2.
    split; [done|]. split; [done|]. split; [done|]. by rewrite <- app_assoc.
Qed.

End AnalyzeOutcome.

(** ** The console loop *)

Section InterfaceFacts.

Context {W : Type} `{NewsStore W, Analyzer W, Clock W}.
Implicit Types s : St W.


(** X19.  Nothing typed after an exit command has any effect. *)
Theorem loop_stops_at_exit before command after s :
  PyStr.lower (PyStr.strip command) ∈ exit_commands ->
  loop (before ++ command :: after) s = loop before s.
Proof.
  intros Hexit. revert s. induction before as [|line rest IH]; intros s.
  - simpl. rewrite strip_idemp. by rewrite bool_decide_true.
  - cbn [loop app]. case_bool_decide; [done|].
    destruct (PyStr.strip (PyStr.strip line)); [apply IH|].
    destruct ((_ ← process_message _; get_text _) s) as [r s1].
    by rewrite IH.
Qed.

(** X20.  Through the console an update command is recognized with white space
    around it as well: the line is trimmed before it is passed on, so the
    refresh of the store is the one collaborator call of that round. *)
Theorem loop_update_command line s :
  PyStr.strip (PyStr.lower line) ∈ update_commands ->
  calls (loop [line] s).2 = calls s ++ [CallUpdateNews].
Proof.
  intros Hupdate. rewrite strip_lower in Hupdate. simpl.
  rewrite strip_idemp.
  assert (Hne : PyStr.strip line <> []).
  { intros Hempty. rewrite Hempty in Hupdate. revert Hupdate.
    apply (bool_decide_unpack _). by vm_compute. }
  rewrite bool_decide_false.
  2: { intros Hexit. revert Hupdate Hexit.
       generalize (PyStr.lower (PyStr.strip line)). intros text.
       unfold update_commands, exit_commands. rewrite !elem_of_cons.
       rewrite !elem_of_nil. intros [->|[->|[->|[]]]] [?|[?|[?|[?|[]]]]];
         discriminate. }
  destruct (PyStr.strip line) as [|c user_input] eqn:Hline; [done|].
  unfold mbind at 1, M_bind.
  pose proof (process_message_post (c :: user_input) s) as [Hcalls Hok].
  unfold is_update_command in Hcalls. rewrite bool_decide_true in Hcalls by done.
  destruct (process_message (c :: user_input) s) as [[resp|e] s1];
    simpl in *; [|done].
  destruct (Hok resp eq_refl) as (text & _ & _ & Htext & _).
  unfold get_text. by rewrite Htext.
Qed.

End InterfaceFacts.

(** ** The analyzer: cache of the analyses *)

Section AnalyzerFacts.

Variable json_loads : pystr -> option Analysis.
Variable chat : nat -> pystr -> Result pystr.

Lemma cached_by_id a news news' :
  news !! "id" = news' !! "id" ->
  NewsAnalyzer.cached a news' = NewsAnalyzer.cached a news.
Proof. unfold NewsAnalyzer.cached. by intros ->. Qed.

(** X21.  An analysis is asked for once per id.  When a call for an item with a
    non-empty id finds the analysis in the cache or gets a reply from the
    language model, every later call for an item with that id returns the
    same analysis, sends no request and changes nothing. *)
Theorem analyze_news_memoizes a news news' id :
  news !! "id" = Some id -> id <> [] -> news' !! "id" = Some id ->
  is_Some (NewsAnalyzer.analysis_cache a !! id) \/
    (exists text, chat (NewsAnalyzer.asked a) (NewsAnalyzer.prompt news) = Ok text) ->
  NewsAnalyzer.analyze_news json_loads chat
    (NewsAnalyzer.analyze_news json_loads chat a news).2 news'
  = NewsAnalyzer.analyze_news json_loads chat a news.
Proof.
  intros Hid Hne Hid' Hfound.
  assert (Hcached : forall b,
    NewsAnalyzer.cached b news' = NewsAnalyzer.analysis_cache b !! id).
  { intros b. unfold NewsAnalyzer.cached. rewrite Hid'. by destruct id. }
  assert (Hcached0 :
    NewsAnalyzer.cached a news = NewsAnalyzer.analysis_cache a !! id).
  { unfold NewsAnalyzer.cached. rewrite Hid. by destruct id. }
  unfold NewsAnalyzer.analyze_news at 2 3. rewrite Hcached0.
  destruct (NewsAnalyzer.analysis_cache a !! id) as [analysis|] eqn:Hget.
  - simpl. unfold NewsAnalyzer.analyze_news. by rewrite Hcached, Hget.
  - destruct Hfound as [[? [=]]|[text Hchat]]. rewrite Hchat. simpl.
    unfold NewsAnalyzer.analyze_news. rewrite Hcached. simpl.
    rewrite Hid. destruct id as [|c id]; [done|].
    by rewrite lookup_insert_eq.
Qed.

(** X22.  What is never cached: the stub returned when the request raises, and
    the analysis of an item without id or with the empty id.  The cache is
    left as it was and the next call asks again. *)
Theorem analyze_news_not_cached a news :
  NewsAnalyzer.cached a news = None ->
  news !! "id" = None \/ news !! "id" = Some [] \/
    (exists e, chat (NewsAnalyzer.asked a) (NewsAnalyzer.prompt news) = Raise e) ->
  let a' := (NewsAnalyzer.analyze_news json_loads chat a news).2 in
  NewsAnalyzer.analysis_cache a' = NewsAnalyzer.analysis_cache a /\
  NewsAnalyzer.asked a' = S (NewsAnalyzer.asked a) /\
  NewsAnalyzer.cached a' news = None.
Proof.
  intros Hcached Hcase. simpl. unfold NewsAnalyzer.analyze_news.
  rewrite Hcached.
  destruct (chat _ _) as [text|e] eqn:Hchat; simpl.
  - destruct Hcase as [Hid|[Hid|[e [=]]]]; rewrite Hid; simpl;
      unfold NewsAnalyzer.cached; by rewrite Hid.
  - done.
Qed.

Lemma analyze_news_cache_mono a news id analysis :
  NewsAnalyzer.analysis_cache a !! id = Some analysis ->
  NewsAnalyzer.analysis_cache
    (NewsAnalyzer.analyze_news json_loads chat a news).2 !! id
  = Some analysis.
Proof.
  intros Hget. unfold NewsAnalyzer.analyze_news.
  destruct (NewsAnalyzer.cached a news) as [cached|] eqn:Hcached; [done|].
  destruct (chat _ _) as [text|e]; simpl; [|done].
  unfold NewsAnalyzer.cached in Hcached.
  destruct (news !! "id") as [[|c id']|]; try done.
  destruct (decide (c :: id' = id)) as [<-|Hne]; [congruence|].
  by rewrite lookup_insert_ne.
Qed.

(** X23.  The cache only grows: a call never removes or replaces the analysis
    stored for any id. *)
Theorem analyze_news_keeps_cache a news id analysis :
  NewsAnalyzer.analysis_cache a !! id = Some analysis ->
  NewsAnalyzer.analysis_cache
    (NewsAnalyzer.analyze_news json_loads chat a news).2 !! id
  = Some analysis.
Proof. apply analyze_news_cache_mono. Qed.

Lemma analyze_news_then_cached a news :
  (forall n p, exists text, chat n p = Ok text) ->
  (exists id, news !! "id" = Some id /\ id <> []) ->
  NewsAnalyzer.cached (NewsAnalyzer.analyze_news json_loads chat a news).2 news
  = Some (NewsAnalyzer.analyze_news json_loads chat a news).1.
Proof.
  intros Hchat (id & Hid & Hne). unfold NewsAnalyzer.analyze_news.
  destruct (NewsAnalyzer.cached a news) as [analysis|] eqn:Hcached; [done|].
  destruct (Hchat (NewsAnalyzer.asked a) (NewsAnalyzer.prompt news))
    as [text ->]. simpl.
  unfold NewsAnalyzer.cached. rewrite Hid. destruct id as [|c id]; [done|].
  simpl. by rewrite lookup_insert_eq.
Qed.

Lemma cached_mono a news news' analysis :
  NewsAnalyzer.cached a news' = Some analysis ->
  NewsAnalyzer.cached (NewsAnalyzer.analyze_news json_loads chat a news).2 news'
  = Some analysis.
Proof.
  unfold NewsAnalyzer.cached. destruct (news' !! "id") as [[|c id]|]; try done.
  apply analyze_news_cache_mono.
Qed.

Lemma batch_of_cached a items :
  Forall (fun news => is_Some (NewsAnalyzer.cached a news)) items ->
  NewsAnalyzer.analyze_news_batch json_loads chat a items =
  ((fun news =>
      (news, default NewsAnalyzer.empty_analysis (NewsAnalyzer.cached a news)))
     <$> items, a).
Proof.
  induction 1 as [|news rest [analysis Hnews] _ IH]; [done|].
  cbn [NewsAnalyzer.analyze_news_batch].
  unfold NewsAnalyzer.analyze_news at 1. rewrite Hnews, IH.
  rewrite fmap_cons, Hnews. done.
Qed.

Lemma batch_caches_all a items :
  (forall n p, exists text, chat n p = Ok text) ->
  Forall (fun news => exists id, news !! "id" = Some id /\ id <> []) items ->
  let out := NewsAnalyzer.analyze_news_batch json_loads chat a items in
  (forall news analysis,
      NewsAnalyzer.cached a news = Some analysis ->
      NewsAnalyzer.cached out.2 news = Some analysis) /\
  Forall (fun news => is_Some (NewsAnalyzer.cached out.2 news)) items /\
  out.1 =
    (fun news =>
       (news,
        default NewsAnalyzer.empty_analysis (NewsAnalyzer.cached out.2 news)))
      <$> items.
Proof.
  intros Hchat Hids. cbv zeta. revert a.
  induction Hids as [|news rest Hnews _ IH]; intros a; [done|].
  cbn [NewsAnalyzer.analyze_news_batch].
  pose proof (analyze_news_then_cached a news Hchat Hnews) as Hthen.
  pose proof (fun news' analysis => cached_mono a news news' analysis) as Hmono.
  destruct (NewsAnalyzer.analyze_news json_loads chat a news)
    as [analysis a1]. simpl in Hthen, Hmono.
  destruct (IH a1) as (Hmono' & Hall & Hresults).
  destruct (NewsAnalyzer.analyze_news_batch json_loads chat a1 rest)
    as [results a2]. simpl in *.
  split; [by auto|]. split.
  - constructor; [|done]. exists analysis. by apply Hmono'.
  - rewrite (Hmono' news analysis) by done. simpl. by rewrite Hresults.
Qed.

(** X26.  A batch can be repeated for free.  When the language model answers
    every request and every item has a non-empty id, analysing the same
    items again returns the same results, in the same order, and leaves the
    analyzer as it was: nothing is asked a second time, also when an id
    occurs twice in the batch. *)
Theorem analyze_news_batch_repeat a items :
  (forall n p, exists text, chat n p = Ok text) ->
  Forall (fun news => exists id, news !! "id" = Some id /\ id <> []) items ->
  NewsAnalyzer.analyze_news_batch json_loads chat
    (NewsAnalyzer.analyze_news_batch json_loads chat a items).2 items
  = NewsAnalyzer.analyze_news_batch json_loads chat a items.
Proof.
  intros Hchat Hids.
  destruct (batch_caches_all a items Hchat Hids) as (_ & Hall & Hresults).
  rewrite batch_of_cached by done. rewrite <- Hresults.
  by destruct (NewsAnalyzer.analyze_news_batch json_loads chat a items).
Qed.

End AnalyzerFacts.

(** ** The analyzer: the JSON text of a reply *)

Lemma find_cp_first c a rest :
  c ∉ a -> NewsAnalyzer.find_cp c (a ++ c :: rest) = Some (length a).
Proof.
  induction a as [|x a IH]; simpl.
  - by rewrite N.eqb_refl.
  - intros [Hx Ha]%not_elem_of_cons.
    destruct (N.eqb_spec x c); [congruence|]. by rewrite IH.
Qed.

Lemma find_cp_none c s : c ∉ s -> NewsAnalyzer.find_cp c s = None.
Proof.
  induction s as [|x s IH]; simpl; [done|].
  intros [Hx Hs]%not_elem_of_cons.
  destruct (N.eqb_spec x c); [congruence|]. by rewrite IH.
Qed.

Lemma rfind_cp_last c a rest :
  c ∉ rest -> NewsAnalyzer.rfind_cp c (a ++ c :: rest) = Some (length a).
Proof.
  intros Hrest. unfold NewsAnalyzer.rfind_cp.
  rewrite reverse_app, reverse_cons, <- app_assoc. simpl.
  rewrite find_cp_first by (by rewrite elem_of_reverse).
  simpl. f_equal. rewrite length_reverse, length_app. simpl. lia.
Qed.

Lemma rfind_cp_none c s : c ∉ s -> NewsAnalyzer.rfind_cp c s = None.
Proof.
  intros Hs. unfold NewsAnalyzer.rfind_cp.
  by rewrite find_cp_none by (by rewrite elem_of_reverse).
Qed.

(** X24.  The text that [_extract_json] parses.  When the reply has an opening
    brace and, after it, a closing brace, it is the part from the first
    opening brace to the last closing brace; a reply without an opening or
    without a closing brace is parsed whole; and when every closing brace
    comes before the first opening brace, the empty text is parsed. *)
Theorem json_candidate_braces :
  (forall a m b,
      123%N ∉ a -> 125%N ∉ b ->
      NewsAnalyzer.json_candidate (a ++ 123%N :: m ++ 125%N :: b)
      = 123%N :: m ++ [125%N]) /\
  (forall text,
      123%N ∉ text \/ 125%N ∉ text ->
      NewsAnalyzer.json_candidate text = text) /\
  (forall a m b,
      123%N ∉ a ++ 125%N :: m -> 125%N ∉ m ++ 123%N :: b ->
      NewsAnalyzer.json_candidate (a ++ 125%N :: m ++ 123%N :: b) = []).
Proof.
  split; [|split].
  - intros a m b Ha Hb. unfold NewsAnalyzer.json_candidate.
    rewrite find_cp_first by done.
    replace (a ++ 123%N :: m ++ 125%N :: b)
      with ((a ++ 123%N :: m) ++ 125%N :: b) at 1
      by (by rewrite <- app_assoc).
    rewrite rfind_cp_last by done.
    rewrite drop_app_length, length_app.
    replace (S (length a + length (123%N :: m)) - length a)
      with (length (123%N :: m ++ [125%N]))
      by (simpl; rewrite length_app; simpl; lia).
    replace (123%N :: m ++ 125%N :: b) with ((123%N :: m ++ [125%N]) ++ b)
      by (simpl; by rewrite <- app_assoc).
    by rewrite take_app_length.
  - intros text [Htext|Htext]; unfold NewsAnalyzer.json_candidate.
    + by rewrite find_cp_none.
    + rewrite rfind_cp_none by done. by destruct (NewsAnalyzer.find_cp _ _).
  - intros a m b Ha Hb. unfold NewsAnalyzer.json_candidate.
    replace (a ++ 125%N :: m ++ 123%N :: b)
      with ((a ++ 125%N :: m) ++ 123%N :: b) at 1
      by (by rewrite <- app_assoc).
    rewrite find_cp_first by done.
    rewrite rfind_cp_last by done.
    replace (S (length a) - length (a ++ 125%N :: m)) with 0
      by (rewrite length_app; simpl; lia).
    done.
Qed.

Section RunInterface.

Context {W : Type} `{NewsStore W, Analyzer W, Clock W}.


End RunInterface.

(** ** Concrete runs of the further properties *)

Lemma search_intent_finds_trigger_witness :
  exists trigger before after,
    trigger ∈ search_words /\
    PyStr.lower (py "найди инфляция") = before ++ trigger ++ after /\
    _extract_search_query (py "найди инфляция") = PyStr.strip after.
Proof.
  apply (search_intent_finds_trigger
           {| context_size := 5; context := [] |} (py "найди инфляция")).
  vm_compute. reflexivity.
Defined.

Lemma handle_latest_news_outcome_witness :
  _handle_latest_news (LInt 5) (init 5 Sample.broken) =
    (Ok (latest_outcome (Raise Sample.failure)),
     {| self := self (init 5 Sample.broken); world := Sample.broken;
        calls := [CallGetLatestNews (LInt 5)] |}).
Proof.
  exact (handle_latest_news_outcome (LInt 5) (init 5 Sample.broken) I).
Defined.

Lemma process_message_latest_path_witness :
  second_limit (py "новости +0") = LInt 0 /\
  (run (process_message (py "новости +0"))
     {| context_size := 5; context := [] |} Sample.calm).1
  = Ok (latest_outcome (Ok [Sample.item "n1" "2024-05-01"])) /\
  calls (run (process_message (py "новости +0"))
           {| context_size := 5; context := [] |} Sample.calm).2
  = [CallGetLatestNews (LInt 5); CallGetLatestNews (LInt 0)].
Proof.
  split; [vm_compute; reflexivity|].
  assert (Hupdate : is_update_command (py "новости +0") = false)
    by (vm_compute; reflexivity).
  assert (Hintent :
    _determine_intent {| context_size := 5; context := [] |}
      (py "новости +0") = Intent.get_latest_news)
    by (vm_compute; reflexivity).
  exact (process_message_latest_path (py "новости +0")
           {| context_size := 5; context := [] |} Sample.calm
           Hupdate Hintent).
Defined.

Lemma process_message_returns_witness :
  exists response,
    (process_message (py "привет") (init 5 Sample.broken)).1 = Ok response.
Proof.
  apply (process_message_returns (py "привет") (init 5 Sample.broken)).
  right. vm_compute. reflexivity.
Defined.

Lemma process_message_raise_leaves_user_entry_witness :
  may_raise (_determine_intent (self (init 5 Sample.broken))
               (py "найди инфляция")) = true /\
  exists older t_user,
    context (self (process_message (py "найди инфляция")
                     (init 5 Sample.broken)).2) =
      older ++ [{| role := role_user; content := py "найди инфляция";
                   timestamp := t_user |}] /\
    older `suffix_of` context (self (init 5 Sample.broken)).
Proof.
  apply (process_message_raise_leaves_user_entry
           (py "найди инфляция") (init 5 Sample.broken) Sample.failure
           (process_message (py "найди инфляция") (init 5 Sample.broken)).2).
  - simpl. lia.
  - vm_compute. reflexivity.
Defined.

Lemma process_message_context_bounded_witness :
  let dm' := self (process_message (py "найди инфляция")
                     (init 1 Sample.broken)).2 in
  context_size dm' = 1%Z /\ (Z.of_nat (length (context dm')) <= 1)%Z.
Proof.
  apply (process_message_context_bounded
           (py "найди инфляция") (init 1 Sample.broken)).
  simpl. lia.
Defined.

Lemma get_latest_news_limit_witness :
  let all := NewsParser.get_latest_news Sample.cache LNone in
  NewsParser.get_latest_news Sample.cache (LInt (-1)) = take 2 all /\
  length (NewsParser.get_latest_news Sample.cache (LInt (-1))) = 2 /\
  date_ge (Sample.item "n3" "2024-05-02") (Sample.item "n1" "2024-05-01").
Proof.
  destruct (get_latest_news_limit Sample.cache (-1)) as (Heq & Hlen & Hge);
    [lia|].
  split; [exact Heq|]. split; [exact Hlen|].
  apply Hge; apply (bool_decide_unpack _); vm_compute; exact I.
Defined.

Lemma update_news_cache_witness :
  let out := NewsParser.update_news Fixture.parser in
  out.1 = Fixture.scraped /\
  NoDup (NewsParser.news_cache out.2).*1 /\
  forall k,
    dict_get k (NewsParser.news_cache out.2) =
    last (filter (fun x => x !! "id" = Some k) Fixture.scraped).
Proof.
  apply (update_news_cache Fixture.parser).
  repeat constructor; by eexists.
Defined.

Lemma update_news_missing_id_witness :
  NewsParser.update_news Fixture.parser_with_untitled
  = ([], Fixture.parser_with_untitled).
Proof.
  apply (update_news_missing_id Fixture.parser_with_untitled Fixture.untitled).
  - apply (bool_decide_unpack _). vm_compute. exact I.
  - reflexivity.
Defined.

Lemma generate_id_last_segment_witness :
  let id := _generate_id (py "0123456789") (fun _ => py "abcdef0123")
              (py "https://www.rbc.ru/economics/") in
  (exists prefix,
      py "https://www.rbc.ru/economics/" = prefix ++ id /\
      (prefix = [] \/ last prefix = Some 47%N)) /\
  (47%N ∉ id) /\
  (last (py "https://www.rbc.ru/economics/") = Some 47%N -> id = []).
Proof.
  apply (generate_id_last_segment (py "0123456789")
           (fun _ => py "abcdef0123") (py "https://www.rbc.ru/economics/")).
  vm_compute. discriminate.
Defined.

Lemma latest_news_response_lists_items_witness :
  exists text,
    latest_news_response [Sample.item "n1" "2024-05-01"]
    = response text (VNews [Sample.item "n1" "2024-05-01"]) ty_latest_news /\
    PyStr.startswith text
      (txt_latest_head ++ PyStr.of_nat 1 ++ txt_latest_head_end) = true /\
    forall k news,
      [Sample.item "n1" "2024-05-01"] !! k = Some news ->
      PyStr.contains text (latest_entry (S k) news) = true.
Proof.
  apply (latest_news_response_lists_items [Sample.item "n1" "2024-05-01"]).
  discriminate.
Defined.

Lemma handle_search_news_outcome_witness :
  exists text,
    _handle_search_news (py "xyzzy") 5 (init 5 Sample.calm) =
      (Ok (response text VNone ty_search_news),
       {| self := self (init 5 Sample.calm); world := Sample.calm;
          calls := [CallSearchNews (py "xyzzy") 5] |}) /\
    PyStr.contains text (py "xyzzy") = true /\
    forall k news,
      ([] : list NewsItem) !! k = Some news ->
      PyStr.contains text (search_entry (S k) news) = true.
Proof.
  apply (handle_search_news_outcome (py "xyzzy") 5 (init 5 Sample.calm)
           [] Sample.calm).
  reflexivity.
Defined.

Lemma loop_stops_at_exit_witness :
  loop [py "привет"; py " Exit "; py "update"] (init 5 Sample.calm)
  = loop [py "привет"] (init 5 Sample.calm).
Proof.
  apply (loop_stops_at_exit [py "привет"] (py " Exit ") [py "update"]
           (init 5 Sample.calm)).
  apply (bool_decide_unpack _). vm_compute. exact I.
Defined.

Lemma loop_update_command_witness :
  calls (loop [py "  Update "] (init 5 Sample.calm)).2 = [CallUpdateNews].
Proof.
  apply (loop_update_command (py "  Update ") (init 5 Sample.calm)).
  apply (bool_decide_unpack _). vm_compute. exact I.
Defined.

Lemma analyze_news_memoizes_witness :
  let analyze := NewsAnalyzer.analyze_news Fixture.json_loads Fixture.chat_up in
  analyze (analyze Fixture.analyzer (Sample.item "n1" "2024-05-01")).2
    (Sample.item "n1" "2024-06-30")
  = analyze Fixture.analyzer (Sample.item "n1" "2024-05-01").
Proof.
  apply (analyze_news_memoizes Fixture.json_loads Fixture.chat_up
           Fixture.analyzer (Sample.item "n1" "2024-05-01")
           (Sample.item "n1" "2024-06-30") (py "n1")).
  - reflexivity.
  - vm_compute. discriminate.
  - reflexivity.
  - right. eexists. reflexivity.
Defined.

Lemma analyze_news_not_cached_witness :
  let out :=
    NewsAnalyzer.analyze_news Fixture.json_loads Fixture.chat_down
      Fixture.analyzer (Sample.item "n1" "2024-05-01") in
  NewsAnalyzer.analysis_cache out.2
  = NewsAnalyzer.analysis_cache Fixture.analyzer /\
  NewsAnalyzer.asked out.2 = 1 /\
  NewsAnalyzer.cached out.2 (Sample.item "n1" "2024-05-01") = None.
Proof.
  apply (analyze_news_not_cached Fixture.json_loads Fixture.chat_down
           Fixture.analyzer (Sample.item "n1" "2024-05-01")).
  - vm_compute. reflexivity.
  - right. right. eexists. reflexivity.
Defined.

Lemma analyze_news_keeps_cache_witness :
  NewsAnalyzer.analysis_cache
    (NewsAnalyzer.analyze_news Fixture.json_loads Fixture.chat_up
       Fixture.analyzer (Sample.item "n1" "2024-05-01")).2 !! py "n2"
  = Some Sample.odd_analysis.
Proof.
  apply (analyze_news_keeps_cache Fixture.json_loads Fixture.chat_up
           Fixture.analyzer (Sample.item "n1" "2024-05-01")).
  vm_compute. reflexivity.
Defined.

Lemma json_candidate_braces_witness :
  NewsAnalyzer.json_candidate (py "Here it is: {}") = py "{}" /\
  NewsAnalyzer.json_candidate (py "no json") = py "no json" /\
  NewsAnalyzer.json_candidate (py "} {") = [].
Proof.
  destruct json_candidate_braces as (Hboth & Hnone & Hcrossed).
  split; [|split].
  - apply (Hboth (py "Here it is: ") [] []);
      apply (bool_decide_unpack _); vm_compute; exact I.
  - apply (Hnone (py "no json")). left.
    apply (bool_decide_unpack _). vm_compute. exact I.
  - apply (Hcrossed [] (py " ") []);
      apply (bool_decide_unpack _); vm_compute; exact I.
Defined.

Lemma handle_analyze_news_calls_witness :
  let items := [Sample.item "n1" "2024-05-01"; Sample.item "n2" "2024-05-03";
                Sample.item "n3" "2024-05-02"] in
  let s := init 5 Fixture.flaky in
  let after_calls w' seen :=
    {| self := self s; world := w';
       calls := calls s ++ CallGetLatestNews (LInt 3)
                  :: (CallAnalyzeNews <$> seen) |} in
  (exists results w',
      analyzed Fixture.flaky items results w' /\
      _handle_analyze_news 3 s =
        (Ok (analysis_response results), after_calls w' items)) \/
  (exists before news after results w1 e w2,
      items = before ++ news :: after /\
      analyzed Fixture.flaky before results w1 /\
      analyze_news news w1 = (Raise e, w2) /\
      _handle_analyze_news 3 s =
        (Raise e, after_calls w2 (before ++ [news]))).
Proof.
  assert (Hlatest :
    get_latest_news (LInt 3) (world (init 5 Fixture.flaky))
    = (Ok [Sample.item "n1" "2024-05-01"; Sample.item "n2" "2024-05-03";
           Sample.item "n3" "2024-05-02"], Fixture.flaky)) by reflexivity.
  exact (handle_analyze_news_calls 3 (init 5 Fixture.flaky) _ Fixture.flaky Hlatest).
Defined.

(** The run behind the witness: the second analysis raises, the third item
    is never asked for. *)
Lemma handle_analyze_news_stops_at_raise :
  _handle_analyze_news 3 (init 5 Fixture.flaky) =
  (Raise Sample.failure,
   {| self := self (init 5 Fixture.flaky); world := Fixture.flaky;
      calls := [CallGetLatestNews (LInt 3);
                CallAnalyzeNews (Sample.item "n1" "2024-05-01");
                CallAnalyzeNews (Sample.item "n2" "2024-05-03")] |}).
Proof. vm_compute. reflexivity. Qed.

Lemma analyze_news_batch_repeat_witness :
  NewsAnalyzer.analyze_news_batch Fixture.json_loads Fixture.chat_up
    (NewsAnalyzer.analyze_news_batch Fixture.json_loads Fixture.chat_up
       Fixture.analyzer Fixture.scraped).2 Fixture.scraped
  = NewsAnalyzer.analyze_news_batch Fixture.json_loads Fixture.chat_up
      Fixture.analyzer Fixture.scraped.
Proof.
  apply (analyze_news_batch_repeat Fixture.json_loads Fixture.chat_up
           Fixture.analyzer Fixture.scraped).
  - intros n p. eexists. reflexivity.
  - repeat constructor; eexists; (split; [reflexivity|discriminate]).
Defined.
